(** * Identity client mixin of the Frontegg Python SDK

    A shallow embedding of [frontegg/common/async_identity_mixin.py]:
    the module-level decode-retry tunables, the cached public key with
    its bounded fetch loop, the resolver dispatch of
    [validate_identity_on_token] and the raw [decode_jwt] path.

    Python values are a small inductive type, exceptions are a sum in
    the result, and every effect (instance attributes, the outbound
    calls, sleeping, logging) goes through a state-and-error monad over
    a [World] that records a trace of what was done. *)

From Stdlib Require Import ZArith String Ascii List Bool Lia QArith.
From stdpp Require Import base option gmap strings.
Import ListNotations.

Set Warnings "-register-all".
Open Scope string_scope.
Open Scope list_scope.
Open Scope Z_scope.

(** ** Python values *)

(** The values that cross this module's interfaces: tokens, headers,
    option bags, keys, JSON bodies and decoded claims.  A [dict] keeps
    its insertion order, so it is an association list. *)
Inductive PyVal : Type :=
| PNone
| PBool (b : bool)
| PInt (z : Z)
| PStr (s : string)
| PList (items : list PyVal)
| PDict (fields : list (string * PyVal)).

(** [bool(v)], as used by [if v:] and [not v]. *)
Definition truthy (v : PyVal) : bool :=
  match v with
  | PNone => false
  | PBool b => b
  | PInt z => negb (z =? 0)
  | PStr s => negb (String.eqb s "")
  | PList items => match items with [] => false | _ => true end
  | PDict fields => match fields with [] => false | _ => true end
  end.

(** Exceptions derived from [Exception].  The first two are the ones
    this module raises itself; the others come out of the runtime and
    of the collaborators. *)
Inductive PyExc : Type :=
| UnauthenticatedException
| InvalidTokenError (msg : string)
| AttributeError (msg : string)
| ValueError (msg : string)
| HTTPError (msg : string)
| OtherError (cls msg : string).

(** Outcome of a call: an exception raised or a value returned. *)
Definition Outcome (A : Type) : Type := PyExc + A.

(** ** [str.replace] *)

(** [skip] counts the characters of a match still to be dropped; with
    [skip = 0] a match of [old] at the current position emits [new]
    and drops [old], otherwise the current character is kept.  This is
    Python's left-to-right, non-overlapping replacement of every
    occurrence, for a non-empty [old]. *)
Fixpoint replace_from (old new : string) (skip : nat) (s : string) : string :=
  match s with
  | EmptyString => EmptyString
  | String c rest =>
      match skip with
      | S k => replace_from old new k rest
      | O =>
          if String.prefix old s
          then String.append new (replace_from old new (Nat.pred (String.length old)) rest)
          else String c (replace_from old new O rest)
      end
  end.

Definition str_replace (s old new : string) : string := replace_from old new O s.

(** [v.replace(old, new)] on an arbitrary value: only [str] has the
    method here. *)
Definition py_replace (v : PyVal) (old new : string) : Outcome PyVal :=
  match v with
  | PStr s => inr (PStr (str_replace s old new))
  | _ => inl (AttributeError "object has no attribute 'replace'")
  end.

(** [old] occurs somewhere in [s]. *)
Fixpoint occurs (old s : string) : bool :=
  String.prefix old s ||
  match s with
  | EmptyString => false
  | String _ rest => occurs old rest
  end.

(** ** Collaborators *)

(** Modelled from the spec: the enum [AuthHeaderType] of
    [frontegg.common.clients.types] is not part of the sources; the
    spec names its members [JWT] and [AccessToken], and the code only
    uses [AuthHeaderType.JWT.value]. *)
Definition AuthHeaderType_JWT_value : string := "JWT".

(** [type == AuthHeaderType.JWT.value] *)
Definition is_jwt_type (type : PyVal) : bool :=
  match type with
  | PStr s => String.eqb s AuthHeaderType_JWT_value
  | _ => false
  end.

(** A token resolver, seen through the two methods the mixin calls.
    [should_handle] is the pure predicate of the resolver contract;
    [validate_token] is given by its outcome on the arguments. *)
Record Resolver : Type := {
  resolver_name : string;
  should_handle : PyVal -> bool;
  validate_token : PyVal -> PyVal -> PyVal -> Outcome PyVal
}.

(** The response object handed back by the vendor session. *)
Record Response : Type := {
  raise_for_status : option PyExc;   (* [None]: the status is a success *)
  json : Outcome PyVal
}.

(** What the authenticator does during one [fetch_public_key]. *)
Record VendorReply : Type := {
  should_refresh_vendor_token : bool;
  refresh_vendor_token : option PyExc;   (* [None]: the refresh succeeds *)
  vendor_session_get : Outcome Response
}.

(** Arguments of one [jwt.decode] call. *)
Record DecodeCall : Type := {
  dc_token : PyVal;
  dc_key : option PyVal;             (* [None]: the key argument is not passed *)
  dc_algorithms : list string;
  dc_options : list (string * PyVal)
}.

(** A Python [float], by the exact value of what it stands for. *)
Inductive PyFloat : Type :=
| FNan
| FInf (negative : bool)
| FFin (q : Q).

Inductive Seconds : Type :=
| SecInt (n : Z)
| SecFloat (x : PyFloat).

Inductive LogLevel : Type := DEBUG | INFO | ERROR.

Inductive LogArg : Type :=
| LVal (v : PyVal)
| LNat (n : nat)
| LExc (e : PyExc).

(** [frontegg_urls.identity_service['vendor_config']]: the table of
    URLs is not part of the sources, the endpoint is kept by name. *)
Inductive Endpoint : Type := identity_service_vendor_config.

(** Everything observable that the mixin does. *)
Inductive Event : Type :=
| EvLog (level : LogLevel) (text : string) (args : list LogArg)
| EvFetchPublicKey (call : nat)
| EvRefreshVendorToken
| EvGet (url : Endpoint) (timeout : Z)
| EvSleep (d : Seconds)
| EvValidateToken (resolver : string) (token public_key options : PyVal)
| EvJwtDecode (args : DecodeCall).

(** ** The world *)

Record World : Type := {
  publicKey : PyVal;                        (* [self.__publicKey] *)
  tokenResolvers : list Resolver;           (* [self.__tokenResolvers] *)
  authenticator : nat -> VendorReply;       (* behaviour at the n-th fetch *)
  fetch_calls : nat;                        (* fetches started so far *)
  jwt_decode : nat -> DecodeCall -> Outcome PyVal;
  decode_calls : nat;
  jwt_decode_retry : Z;
  jwt_decode_retry_delay : PyFloat;
  trace : list Event
}.

Definition emit (ev : Event) (w : World) : World :=
  {| publicKey := publicKey w; tokenResolvers := tokenResolvers w;
     authenticator := authenticator w; fetch_calls := fetch_calls w;
     jwt_decode := jwt_decode w; decode_calls := decode_calls w;
     jwt_decode_retry := jwt_decode_retry w;
     jwt_decode_retry_delay := jwt_decode_retry_delay w;
     trace := trace w ++ [ev] |}.

Definition set_publicKey (k : PyVal) (w : World) : World :=
  {| publicKey := k; tokenResolvers := tokenResolvers w;
     authenticator := authenticator w; fetch_calls := fetch_calls w;
     jwt_decode := jwt_decode w; decode_calls := decode_calls w;
     jwt_decode_retry := jwt_decode_retry w;
     jwt_decode_retry_delay := jwt_decode_retry_delay w;
     trace := trace w |}.

Definition count_fetch (w : World) : World :=
  {| publicKey := publicKey w; tokenResolvers := tokenResolvers w;
     authenticator := authenticator w; fetch_calls := S (fetch_calls w);
     jwt_decode := jwt_decode w; decode_calls := decode_calls w;
     jwt_decode_retry := jwt_decode_retry w;
     jwt_decode_retry_delay := jwt_decode_retry_delay w;
     trace := trace w |}.

Definition count_decode (w : World) : World :=
  {| publicKey := publicKey w; tokenResolvers := tokenResolvers w;
     authenticator := authenticator w; fetch_calls := fetch_calls w;
     jwt_decode := jwt_decode w; decode_calls := S (decode_calls w);
     jwt_decode_retry := jwt_decode_retry w;
     jwt_decode_retry_delay := jwt_decode_retry_delay w;
     trace := trace w |}.

(** ** State and exceptions *)

Definition M (A : Type) : Type := World -> Outcome A * World.

Definition ret {A} (a : A) : M A := fun w => (inr a, w).

Definition raise {A} (e : PyExc) : M A := fun w => (inl e, w).

Definition bind {A B} (m : M A) (k : A -> M B) : M B :=
  fun w =>
    match m w with
    | (inl e, w') => (inl e, w')
    | (inr a, w') => k a w'
    end.

(** [try: m except Exception as e: handler e] *)
Definition try_except {A} (m : M A) (handler : PyExc -> M A) : M A :=
  fun w =>
    match m w with
    | (inl e, w') => handler e w'
    | (inr a, w') => (inr a, w')
    end.

Definition lift {A} (o : Outcome A) : M A := fun w => (o, w).

Definition gets {A} (f : World -> A) : M A := fun w => (inr (f w), w).

Definition modify (f : World -> World) : M unit := fun w => (inr tt, f w).

Notation "x <- m ;; k" := (bind m (fun x => k))
  (at level 100, m at level 90, right associativity).
Notation "m ;;; k" := (bind m (fun _ => k))
  (at level 100, right associativity).

Definition log (level : LogLevel) (text : string) (args : list LogArg) : M unit :=
  modify (emit (EvLog level text args)).

Definition sleep (d : Seconds) : M unit := modify (emit (EvSleep d)).

(** [data.get(key)]: only a [dict] has the method here; a missing key
    gives [None]. *)
Fixpoint assoc_get (key : string) (fields : list (string * PyVal)) : PyVal :=
  match fields with
  | [] => PNone
  | (k, v) :: rest => if String.eqb k key then v else assoc_get key rest
  end.

Definition py_get (data : PyVal) (key : string) : Outcome PyVal :=
  match data with
  | PDict fields => inr (assoc_get key fields)
  | _ => inl (AttributeError "object has no attribute 'get'")
  end.

Definition raise_if (o : option PyExc) : M unit :=
  match o with
  | Some e => raise e
  | None => ret tt
  end.

(** ** The key provider *)

Definition fetch_public_key : M PyVal :=
  n <- gets fetch_calls ;;
  modify count_fetch ;;;
  modify (emit (EvFetchPublicKey n)) ;;;
  auth <- gets (fun w => authenticator w n) ;;
  (if should_refresh_vendor_token auth
   then modify (emit EvRefreshVendorToken) ;;;
        raise_if (refresh_vendor_token auth)
   else ret tt) ;;;
  modify (emit (EvGet identity_service_vendor_config 3)) ;;;
  response <- lift (vendor_session_get auth) ;;
  raise_if (raise_for_status response) ;;;
  data <- lift (json response) ;;
  lift (py_get data "publicKey").

(** The [while reties < 10] loop, entered with [reties] failures behind
    it and [budget = 10 - reties] iterations left. *)
Fixpoint get_public_key_loop (budget reties : nat) : M PyVal :=
  match budget with
  | O =>
      log ERROR "failed to get public key in all retries" [] ;;;
      ret PNone
  | S budget' =>
      try_except
        (k <- fetch_public_key ;;
         modify (set_publicKey k) ;;;
         gets publicKey)
        (fun e =>
           let reties := S reties in
           log ERROR "could not get public key from frontegg, retry number - "
               [LNat reties; LExc e] ;;;
           sleep (SecInt 1) ;;;
           get_public_key_loop budget' reties)
  end.

Definition get_public_key : M PyVal :=
  cached <- gets publicKey ;;
  if truthy cached then ret cached
  else
    log INFO "could not find public key locally, will fetch public key" [] ;;;
    get_public_key_loop (10 - 0) 0.

(** ** The orchestrator *)

(** The [for _resolver in ...: if ...: break] scan. *)
Fixpoint select_resolver (type : PyVal) (resolvers : list Resolver) : option Resolver :=
  match resolvers with
  | [] => None
  | r :: rest => if should_handle r type then Some r else select_resolver type rest
  end.

(** Lines 64 to 68: the token as it leaves the prefix-stripping step. *)
Definition extract_token (token type : PyVal) : M PyVal :=
  if is_jwt_type type then
    try_except
      (lift (py_replace token "Bearer " ""))
      (fun _ => log ERROR "Failed to extract token - " [LVal token] ;;; ret token)
  else ret token.

Definition call_validate_token (r : Resolver) (token public_key options : PyVal) : M PyVal :=
  modify (emit (EvValidateToken (resolver_name r) token public_key options)) ;;;
  lift (validate_token r token public_key options).

Definition validate_identity_on_token (token options type : PyVal) : M PyVal :=
  token <- extract_token token type ;;
  public_key <- try_except get_public_key
                  (fun _ => log ERROR "Failed to get public key - " [] ;;;
                            raise UnauthenticatedException) ;;
  resolvers <- gets tokenResolvers ;;
  match select_resolver type resolvers with
  | None =>
      log ERROR "Failed to find token resolver" [] ;;;
      raise UnauthenticatedException
  | Some resolver =>
      entity <- call_validate_token resolver token public_key options ;;
      ret entity
  end.

(** ** The raw decode path *)

Definition call_jwt_decode (args : DecodeCall) : M PyVal :=
  n <- gets decode_calls ;;
  modify count_decode ;;;
  modify (emit (EvJwtDecode args)) ;;;
  decode <- gets jwt_decode ;;
  lift (decode n args).

(** Modelled from the spec: the decorator [retry] of
    [frontegg.helpers.retry] is not part of the sources.  The spec has
    it as a bounded retry of the decorated call with a configurable
    attempt count and inter-attempt delay, whose exhaustion surfaces
    the failure to the caller.  With no attempt allowed nothing is
    called. *)
Fixpoint retry_loop {A} (tries : nat) (retry_delay : PyFloat) (body : M A) : M A :=
  match tries with
  | O => raise (OtherError "RetryError" "no attempt allowed")
  | S O => body
  | S tries' =>
      try_except body
        (fun _ => sleep (SecFloat retry_delay) ;;; retry_loop tries' retry_delay body)
  end.

Definition retry {A} (action : string) (total_tries : Z) (retry_delay : PyFloat)
    (body : M A) : M A :=
  retry_loop (Z.to_nat total_tries) retry_delay body.

(** The body of [__get_jwt_data], under its decorator below. *)
Definition get_jwt_data_body (jwt_token verify public_key : PyVal) : M PyVal :=
  if truthy verify then
    call_jwt_decode
      {| dc_token := jwt_token; dc_key := Some public_key;
         dc_algorithms := ["RS256"];
         dc_options := [("verify_aud", PBool false)] |}
  else
    call_jwt_decode
      {| dc_token := jwt_token; dc_key := None;
         dc_algorithms := ["RS256"];
         dc_options := [("verify_aud", PBool false); ("verify_signature", verify)] |}.

Definition get_jwt_data (jwt_token verify public_key : PyVal) : M PyVal :=
  total_tries <- gets jwt_decode_retry ;;
  retry_delay <- gets jwt_decode_retry_delay ;;
  retry "decode jwt" total_tries retry_delay
    (get_jwt_data_body jwt_token verify public_key).

Definition decode_jwt (authorization_header verify : PyVal) : M PyVal :=
  if negb (truthy authorization_header) then
    raise (InvalidTokenError "Authorization headers is missing")
  else
    log DEBUG "found authorization header: " [LVal authorization_header] ;;;
    jwt_token <- lift (py_replace authorization_header "Bearer " "") ;;
    public_key <- get_public_key ;;
    log DEBUG "got public key" [LVal public_key] ;;;
    decoded <- get_jwt_data jwt_token verify public_key ;;
    log INFO "jwt was decoded successfully" [] ;;;
    log DEBUG "JWT value - " [LVal decoded] ;;;
    ret decoded.

(** ** Module load: the decode-retry tunables *)

Record Tunables : Type := {
  tun_jwt_decode_retry : Z;
  tun_jwt_decode_retry_delay : PyFloat
}.


Section ModuleLoad.
(** The builtins [int] and [float] on a string; [None] stands for
    their [ValueError]. *)
Variable py_int : string -> option Z.
Variable py_float : string -> option PyFloat.


End ModuleLoad.

(** [IdentityAsyncClientMixin(async_authenticator)] right after
    construction: nothing cached, nothing done yet. *)
Definition new_client (tun : Tunables) (auth : nat -> VendorReply)
    (resolvers : list Resolver) (decode : nat -> DecodeCall -> Outcome PyVal) : World :=
  {| publicKey := PNone; tokenResolvers := resolvers;
     authenticator := auth; fetch_calls := O;
     jwt_decode := decode; decode_calls := O;
     jwt_decode_retry := tun_jwt_decode_retry tun;
     jwt_decode_retry_delay := tun_jwt_decode_retry_delay tun;
     trace := [] |}.

(** ** ASCII readings of [int] and [float] *)













(** ** Reading a run *)

(** The world after [n] more fetches and the events [evs]. *)
Definition advance (w : World) (n : nat) (evs : list Event) : World :=
  {| publicKey := publicKey w; tokenResolvers := tokenResolvers w;
     authenticator := authenticator w; fetch_calls := (n + fetch_calls w)%nat;
     jwt_decode := jwt_decode w; decode_calls := decode_calls w;
     jwt_decode_retry := jwt_decode_retry w;
     jwt_decode_retry_delay := jwt_decode_retry_delay w;
     trace := trace w ++ evs |}.

(** What one fetch returns, as a function of the authenticator's reply. *)
Definition fetch_outcome (r : VendorReply) : Outcome PyVal :=
  match (if should_refresh_vendor_token r then refresh_vendor_token r else None) with
  | Some e => inl e
  | None =>
      match vendor_session_get r with
      | inl e => inl e
      | inr response =>
          match raise_for_status response with
          | Some e => inl e
          | None =>
              match json response with
              | inl e => inl e
              | inr data => py_get data "publicKey"
              end
          end
      end
  end.

(** What one fetch does, as a function of the authenticator's reply. *)
Definition fetch_events (n : nat) (r : VendorReply) : list Event :=
  EvFetchPublicKey n ::
  (if should_refresh_vendor_token r then
     EvRefreshVendorToken ::
     match refresh_vendor_token r with
     | Some _ => []
     | None => [EvGet identity_service_vendor_config 3]
     end
   else [EvGet identity_service_vendor_config 3]).

(** The [i]-th fetch from [w] on raises. *)
Definition fetch_fails (w : World) (i : nat) : Prop :=
  exists e, fetch_outcome (authenticator w (i + fetch_calls w)%nat) = inl e.

(** The [i]-th fetch from [w] on returns [k]. *)
Definition fetch_returns (w : World) (i : nat) (k : PyVal) : Prop :=
  fetch_outcome (authenticator w (i + fetch_calls w)%nat) = inr k.

Definition is_fetch (ev : Event) : bool :=
  match ev with EvFetchPublicKey _ => true | _ => false end.

(** Events that reach out of the process for the key. *)
Definition is_network (ev : Event) : bool :=
  match ev with
  | EvFetchPublicKey _ | EvRefreshVendorToken | EvGet _ _ => true
  | _ => false
  end.

Definition is_validate (ev : Event) : bool :=
  match ev with EvValidateToken _ _ _ _ => true | _ => false end.

Definition is_pacing (ev : Event) : bool :=
  match ev with EvFetchPublicKey _ | EvSleep _ => true | _ => false end.

(** The fetches and sleeps of a run, in order. *)
Definition pacing (evs : list Event) : list Event := List.filter is_pacing evs.

(** [n] failed attempts starting with fetch number [start]: a fetch
    and a sleep of one second, each time. *)
Fixpoint schedule (start n : nat) : list Event :=
  match n with
  | O => []
  | S n' => EvFetchPublicKey start :: EvSleep (SecInt 1) :: schedule (S start) n'
  end.

(** Number of fetches in a list of events. *)
Definition fetches (evs : list Event) : nat := List.length (List.filter is_fetch evs).

(** The token as it leaves lines 64 to 68. *)
Definition stripped (token type : PyVal) : PyVal :=
  if is_jwt_type type then
    match py_replace token "Bearer " "" with
    | inr t => t
    | inl _ => token
    end
  else token.

(** [key in fields] *)
Definition has_field (key : string) (fields : list (string * PyVal)) : bool :=
  existsb (fun kv => String.eqb (fst kv) key) fields.

(** The world with its cache overwritten, or left alone. *)
Definition with_key (o : option PyVal) (w : World) : World :=
  match o with
  | Some k => set_publicKey k w
  | None => w
  end.

(** ** Sample collaborators *)

(** The vendor answers with a body holding [k] under ["publicKey"]. *)
Definition key_reply (k : PyVal) : VendorReply :=
  {| should_refresh_vendor_token := false;
     refresh_vendor_token := None;
     vendor_session_get :=
       inr {| raise_for_status := None;
              json := inr (PDict [("publicKey", k)]) |} |}.

(** The vendor answers with a body that has no ["publicKey"]. *)
Definition keyless_reply : VendorReply :=
  {| should_refresh_vendor_token := false;
     refresh_vendor_token := None;
     vendor_session_get :=
       inr {| raise_for_status := None;
              json := inr (PDict [("other", PStr "x")]) |} |}.

(** The vendor cannot be reached. *)
Definition unreachable_reply : VendorReply :=
  {| should_refresh_vendor_token := true;
     refresh_vendor_token := None;
     vendor_session_get := inl (OtherError "ConnectError" "connection refused") |}.

(** Unreachable for the first [n] fetches, then serving [k]. *)
Definition flaky_vendor (n : nat) (k : PyVal) : nat -> VendorReply :=
  fun i => if (i <? n)%nat then unreachable_reply else key_reply k.

Definition sample_key : PyVal := PStr "-----BEGIN PUBLIC KEY-----".

(** A resolver for the JWT type that accepts whatever it is given. *)
Definition accepting_resolver : Resolver :=
  {| resolver_name := "jwt";
     should_handle := is_jwt_type;
     validate_token := fun token _ _ => inr (PDict [("sub", token)]) |}.

(** A resolver for the JWT type that rejects whatever it is given. *)
Definition rejecting_resolver : Resolver :=
  {| resolver_name := "jwt";
     should_handle := is_jwt_type;
     validate_token := fun _ _ _ => inl (InvalidTokenError "Signature verification failed") |}.

Definition sample_decode : nat -> DecodeCall -> Outcome PyVal :=
  fun _ _ => inr (PDict [("sub", PStr "user")]).

Definition default_tunables : Tunables :=
  {| tun_jwt_decode_retry := 1; tun_jwt_decode_retry_delay := FFin 0 |}.

(** A freshly built client whose vendor is never reachable. *)
Definition unreachable_client : World :=
  new_client default_tunables (fun _ => unreachable_reply) [accepting_resolver] sample_decode.

(** A freshly built client whose vendor fails three times, then serves
    the key. *)
Definition flaky_client : World :=
  new_client default_tunables (flaky_vendor 3 sample_key) [accepting_resolver] sample_decode.

(** A freshly built client whose vendor answers without a key. *)
Definition keyless_client : World :=
  new_client default_tunables (fun _ => keyless_reply) [accepting_resolver] sample_decode.

(** A freshly built client whose only resolver rejects every token. *)
Definition rejecting_client : World :=
  new_client default_tunables (fun _ => key_reply sample_key) [rejecting_resolver] sample_decode.

(** A freshly built client with no resolver registered. *)
Definition bare_client : World :=
  new_client default_tunables (fun _ => key_reply sample_key) [] sample_decode.

(** A client that already holds the key. *)
Definition keyed_client : World :=
  set_publicKey sample_key
    (new_client default_tunables (fun _ => key_reply sample_key) [accepting_resolver]
       sample_decode).

(** One algorithm allowed, and it is RS256; the audience is not checked. *)
Definition decode_args_fixed (args : DecodeCall) : Prop :=
  dc_algorithms args = ["RS256"] /\
  has_field "verify_aud" (dc_options args) = true /\
  assoc_get "verify_aud" (dc_options args) = PBool false.

Definition decode_event_fixed (ev : Event) : Prop :=
  match ev with
  | EvJwtDecode args => decode_args_fixed args
  | _ => True
  end.

(** The world after [n] further calls of [get_public_key]. *)
Definition after_calls (n : nat) (w : World) : World :=
  Nat.iter n (fun u => snd (get_public_key u)) w.

(** Events of the key provider: anything but a resolver or decoder call. *)
Definition is_key_event (ev : Event) : bool :=
  match ev with
  | EvValidateToken _ _ _ _ | EvJwtDecode _ => false
  | _ => true
  end.

(** [m] only appends events, all of them satisfying [P]. *)
Definition appends (P : Event -> Prop) {A} (m : M A) : Prop :=
  forall w, exists evs, trace (snd (m w)) = trace w ++ evs /\ Forall P evs.

(** ** Reading the failure log *)

(** The attempt number and the exception of a "could not get public
    key" entry. *)
Definition failure_of (ev : Event) : option (nat * PyExc) :=
  match ev with
  | EvLog ERROR text [LNat n; LExc e] =>
      if String.eqb text "could not get public key from frontegg, retry number - "
      then Some (n, e) else None
  | _ => None
  end.

(** The failed attempts a run logged, in order. *)
Fixpoint failure_log (evs : list Event) : list (nat * PyExc) :=
  match evs with
  | [] => []
  | ev :: rest =>
      match failure_of ev with
      | Some entry => entry :: failure_log rest
      | None => failure_log rest
      end
  end.

(** The vendor answers with an error status, over a body that holds a key. *)
Definition error_reply : VendorReply :=
  {| should_refresh_vendor_token := false;
     refresh_vendor_token := None;
     vendor_session_get :=
       inr {| raise_for_status := Some (HTTPError "500 Server Error");
              json := inr (PDict [("publicKey", sample_key)]) |} |}.

(** The vendor token is due and cannot be refreshed. *)
Definition stale_reply : VendorReply :=
  {| should_refresh_vendor_token := true;
     refresh_vendor_token := Some (OtherError "AuthError" "refresh failed");
     vendor_session_get :=
       inr {| raise_for_status := None;
              json := inr (PDict [("publicKey", sample_key)]) |} |}.

(** A freshly built client whose vendor token cannot be refreshed. *)
Definition stale_client : World :=
  new_client default_tunables (fun _ => stale_reply) [accepting_resolver] sample_decode.

(** A freshly built client whose vendor answers with an error status. *)
Definition error_client : World :=
  new_client default_tunables (fun _ => error_reply) [accepting_resolver] sample_decode.

(** A resolver that claims every type and echoes what it was given. *)
Definition greedy_resolver : Resolver :=
  {| resolver_name := "greedy";
     should_handle := fun _ => true;
     validate_token := fun token key _ => inr (PDict [("token", token); ("key", key)]) |}.

(** A client holding the key, with a resolver for everything ahead of one for JWT. *)
Definition two_resolver_client : World :=
  set_publicKey sample_key
    (new_client default_tunables (fun _ => key_reply sample_key)
       [greedy_resolver; rejecting_resolver] sample_decode).

(** [m] leaves the observation [f] of the world as it was. *)
Definition preserves {B A} (f : World -> B) (m : M A) : Prop :=
  forall w, f (snd (m w)) = f w.

(** A [jwt.decode] call for [token] with the key argument [key], and
    with [verify] for [verify_signature] when the key is left out. *)
Definition decode_event_with (token : PyVal) (key : option PyVal) (verify : PyVal)
    (ev : Event) : Prop :=
  match ev with
  | EvJwtDecode args =>
      dc_token args = token /\
      dc_key args = key /\
      (key = None -> assoc_get "verify_signature" (dc_options args) = verify)
  | _ => True
  end.

(** Lines 96 to 100 of [decode_jwt]: what follows the key lookup. *)
Definition decode_after_key (jwt_token verify public_key : PyVal) : M PyVal :=
  log DEBUG "got public key" [LVal public_key] ;;;
  decoded <- get_jwt_data jwt_token verify public_key ;;
  log INFO "jwt was decoded successfully" [] ;;;
  log DEBUG "JWT value - " [LVal decoded] ;;;
  ret decoded.

(** ** The Flask extension *)

(** [frontegg/flask.py]: the settings read by [Frontegg.__init__], the
    configuration defaults of [init_app], and the proxying of a request
    by [FronteggFlaskClient.proxy_request] and the [proxy] view. *)

(** The incoming [flask.request], by what the code reads of it. *)
Record FlaskRequest : Type := {
  req_base_url : string;
  req_is_json : bool;
  req_data : string;                 (* the raw body *)
  req_json : Outcome PyVal;          (* what reading [request.json] gives *)
  req_method : string;
  req_args : list (string * string)
}.

(** Arguments of one [self.request] call of the base client. *)
Record UpstreamCall : Type := {
  uc_endpoint : string;
  uc_method : string;
  uc_json : PyVal;
  uc_params : list (string * string);
  uc_host : PyVal
}.

(** The [requests.Response] that comes back. *)
Record ProxyResponse : Type := {
  pr_content : string;
  pr_status_code : Z;
  pr_headers : list (string * string)
}.

(** The [flask.Response] built by [make_response]. *)
Record FlaskResponse : Type := {
  fr_content : string;
  fr_status_code : Z;
  fr_headers : list (string * string)
}.

(** What a view returns: a response object, or a body with a status. *)
Inductive ViewResult : Type :=
| ViewResponse (response : FlaskResponse)
| ViewTuple (body : PyVal) (status : Z).

Inductive FlaskEvent : Type :=
| FlPrint (text : string) (value : PyVal)
| FlRequest (call : UpstreamCall).

(** [except ForbiddenRequest] *)
Definition is_ForbiddenRequest (e : PyExc) : bool :=
  match e with
  | OtherError cls _ => String.eqb cls "ForbiddenRequest"
  | _ => false
  end.

(** [config.setdefault(key, value)] *)
Definition setdefault (key : string) (value : PyVal) (config : gmap string PyVal) :
    gmap string PyVal :=
  match config !! key with
  | Some _ => config
  | None => <[key := value]> config
  end.

(** [os.environ.get(name, default)] *)
Definition environ_get (environ : gmap string string) (name default : string) : string :=
  match environ !! name with
  | Some value => value
  | None => default
  end.

(** [str(KeyError(key))] *)
Definition KeyError_str (key : string) : string :=
  String.append "'" (String.append key "'").

(** Lines 68 to 74 of [Frontegg.__init__]: the three settings, or the
    [ValueError] made of the first [KeyError]. *)
Definition read_settings (app : option (gmap string PyVal)) : Outcome (PyVal * PyVal * PyVal) :=
  match app with
  | None => inl (AttributeError "'NoneType' object has no attribute 'config'")
  | Some config =>
      let missing key :=
        inl (ValueError
               (String.append (KeyError_str key)
                  " must be specified in the application's configuration.")) in
      match config !! "FRONTEGG_CLIENT_ID" with
      | None => missing "FRONTEGG_CLIENT_ID"
      | Some client_id =>
          match config !! "FRONTEGG_API_KEY" with
          | None => missing "FRONTEGG_API_KEY"
          | Some api_key =>
              match config !! "FRONTEGG_CONTEXT_RESOLVER" with
              | None => missing "FRONTEGG_CONTEXT_RESOLVER"
              | Some context_callback => inr (client_id, api_key, context_callback)
              end
          end
      end
  end.

(** The service settings of [init_app] with the path each default is
    joined from. *)
Definition service_paths : list (string * string) :=
  [("FRONTEGG_AUTHENTICATION_SERVICE_URL", "/vendors/auth/token");
   ("FRONTEGG_AUDITS_SERVICE_URL", "/audits");
   ("FRONTEGG_METADATA_SERVICE_URL", "/metadata");
   ("FRONTEGG_TEAM_SERVICE_URL", "/team")].

Section FlaskExtension.
(** [urllib.parse.urljoin]; it raises on a base it cannot split. *)
Variable urljoin : string -> string -> Outcome string.
(** [urlparse(url).hostname] *)
Variable urlparse_hostname : string -> Outcome PyVal.
(** [BaseFronteggClient.request], which is not part of the sources. *)
Variable client_request : UpstreamCall -> Outcome ProxyResponse.
(** [flask.make_response(content, status)] *)
Variable make_response : string -> Z -> Outcome FlaskResponse.

(** Lines 92 to 119 of [init_app]: the configuration defaults, set in
    place before any route is registered.  The result is what became of
    [app.config], with the exception that stopped the run if any. *)
Definition init_app_config (environ : gmap string string) (config : gmap string PyVal) :
    option PyExc * gmap string PyVal :=
  let frontegg_api_gateway_url :=
    environ_get environ "FRONTEGG_API_GATEWAY_URL" "https://api.frontegg.com/" in
  let config := setdefault "FRONTEGG_API_GATEWAY_URL" (PStr frontegg_api_gateway_url) config in
  match urljoin frontegg_api_gateway_url "/vendors/auth/token" with
  | inl e => (Some e, config)
  | inr joined =>
  let frontegg_authentication_service_url :=
    environ_get environ "FRONTEGG_AUTHENTICATION_SERVICE_URL" joined in
  let config := setdefault "FRONTEGG_AUTHENTICATION_SERVICE_URL"
                  (PStr frontegg_authentication_service_url) config in
  match urljoin frontegg_api_gateway_url "/audits" with
  | inl e => (Some e, config)
  | inr joined =>
  let frontegg_audits_service_url :=
    environ_get environ "FRONTEGG_AUDITS_SERVICE_URL" joined in
  let config := setdefault "FRONTEGG_AUDITS_SERVICE_URL"
                  (PStr frontegg_audits_service_url) config in
  match urljoin frontegg_api_gateway_url "/metadata" with
  | inl e => (Some e, config)
  | inr joined =>
  let frontegg_metadata_service_url :=
    environ_get environ "FRONTEGG_METADATA_SERVICE_URL" joined in
  let config := setdefault "FRONTEGG_METADATA_SERVICE_URL"
                  (PStr frontegg_metadata_service_url) config in
  match urljoin frontegg_api_gateway_url "/team" with
  | inl e => (Some e, config)
  | inr joined =>
  let frontegg_team_service_url :=
    environ_get environ "FRONTEGG_TEAM_SERVICE_URL" joined in
  let config := setdefault "FRONTEGG_TEAM_SERVICE_URL"
                  (PStr frontegg_team_service_url) config in
  (None, config)
  end end end end.

(** [FronteggFlaskClient.proxy_request]: what was printed and sent, and
    what the call gives. *)
Definition proxy_request (request : FlaskRequest) (endpoint : string) :
    list FlaskEvent * Outcome ProxyResponse :=
  match urlparse_hostname (req_base_url request) with
  | inl e => ([], inl e)
  | inr hostname =>
      let printed := FlPrint "hostname for the request - " hostname in
      match (if (req_is_json request && negb (String.eqb (req_data request) ""))%bool
             then req_json request else inr PNone) with
      | inl e => ([printed], inl e)
      | inr requestJson =>
          let call := {| uc_endpoint := endpoint; uc_method := req_method request;
                         uc_json := requestJson; uc_params := req_args request;
                         uc_host := hostname |} in
          ([printed; FlRequest call], client_request call)
      end
  end.

(** The [proxy] view registered by [init_app]. *)
Definition proxy (request : FlaskRequest) (endpoint : string) :
    list FlaskEvent * Outcome ViewResult :=
  match proxy_request request endpoint with
  | (evs, inl e) => (evs, inl e)
  | (evs, inr proxy_response) =>
      match make_response (pr_content proxy_response) (pr_status_code proxy_response) with
      | inr response =>
          (evs, inr (ViewResponse {| fr_content := fr_content response;
                                     fr_status_code := fr_status_code response;
                                     fr_headers := fr_headers response |}))
      | inl e =>
          if is_ForbiddenRequest e
          then (evs, inr (ViewTuple (PDict [("message", PStr "Forbidden")]) 403))
          else (evs, inl e)
      end
  end.
End FlaskExtension.

(** [current_app.config[key]] *)
Definition config_item (config : gmap string PyVal) (key : string) : Outcome PyVal :=
  match config !! key with
  | Some value => inr value
  | None => inl (OtherError "KeyError" (KeyError_str key))
  end.

(** The [base_url] property of [FronteggFlaskClient]. *)
Definition base_url (config : gmap string PyVal) : Outcome PyVal :=
  config_item config "FRONTEGG_API_GATEWAY_URL".

(** The [authentication_service_url] property of [FronteggFlaskClient]. *)
Definition authentication_service_url (config : gmap string PyVal) : Outcome PyVal :=
  config_item config "FRONTEGG_AUTHENTICATION_SERVICE_URL".

(** The requests sent upstream, in order. *)
Fixpoint upstream_calls (evs : list FlaskEvent) : list UpstreamCall :=
  match evs with
  | [] => []
  | FlRequest call :: rest => call :: upstream_calls rest
  | _ :: rest => upstream_calls rest
  end.

(** Scheme and authority of an absolute URL. *)
Fixpoint authority_length (s : string) : nat :=
  match s with
  | EmptyString => O
  | String c rest =>
      if (Ascii.eqb c "/" || Ascii.eqb c "?" || Ascii.eqb c "#")%bool then O
      else S (authority_length rest)
  end.

Definition url_origin (base : string) : string :=
  match String.index 0 "://" base with
  | Some i =>
      let after := String.substring (i + 3) (String.length base - (i + 3)) base in
      String.substring 0 (i + 3 + authority_length after) base
  | None => ""
  end.

(** [urljoin] of an absolute path onto a base: the path replaces
    everything after the authority. *)
Definition join_absolute_path (base path : string) : Outcome string :=
  inr (String.append (url_origin base) path).

(** An upstream that turns the request down. *)
Definition forbidding_upstream (call : UpstreamCall) : Outcome ProxyResponse :=
  inl (OtherError "ForbiddenRequest" "not allowed").

Definition plain_make_response (content : string) (status : Z) : Outcome FlaskResponse :=
  inr {| fr_content := content; fr_status_code := status;
         fr_headers := [("Content-Type", "text/html; charset=utf-8")] |}.

Definition sample_hostname (url : string) : Outcome PyVal := inr (PStr "app.example.com").

Definition sample_request : FlaskRequest :=
  {| req_base_url := "https://app.example.com/frontegg/audits";
     req_is_json := true;
     req_data := "";
     req_json := inl (OtherError "BadRequest" "Failed to decode JSON object");
     req_method := "GET";
     req_args := [("count", "10")] |}.

(** The first of the three settings that the configuration lacks. *)
Definition first_missing_setting (config : gmap string PyVal) : option string :=
  List.find (fun key => match config !! key with Some _ => false | None => true end)
    ["FRONTEGG_CLIENT_ID"; "FRONTEGG_API_KEY"; "FRONTEGG_CONTEXT_RESOLVER"].

(** * Properties *)

(** ** World bookkeeping *)

Lemma emit_advance ev w n evs :
  emit ev (advance w n evs) = advance w n (evs ++ [ev]).
Proof.
  unfold emit, advance; simpl. now rewrite <- app_assoc.
Qed.

Lemma advance_advance w n1 e1 n2 e2 :
  advance (advance w n1 e1) n2 e2 = advance w (n2 + n1) (e1 ++ e2).
Proof.
  unfold advance; simpl. rewrite <- app_assoc. f_equal. lia.
Qed.

Lemma advance_zero w : advance w 0 [] = w.
Proof.
  destruct w; unfold advance; simpl. now rewrite app_nil_r.
Qed.

Lemma fetch_public_key_run w :
  fetch_public_key w =
  (fetch_outcome (authenticator w (fetch_calls w)),
   advance w 1 (fetch_events (fetch_calls w) (authenticator w (fetch_calls w)))).
Proof.
  unfold fetch_public_key, fetch_outcome, fetch_events, bind, gets, modify, lift,
    raise_if, raise, ret, emit, count_fetch, advance; simpl.
  destruct (authenticator w (fetch_calls w)) as [sr rf get]; simpl.
  destruct sr; simpl.
  - destruct rf as [e|]; simpl.
    + now rewrite <- app_assoc.
    + destruct get as [e|[st js]]; simpl; [now rewrite <- !app_assoc|].
      destruct st; simpl; [now rewrite <- !app_assoc|].
      destruct js; simpl; now rewrite <- !app_assoc.
  - destruct get as [e|[st js]]; simpl; [now rewrite <- !app_assoc|].
    destruct st; simpl; [now rewrite <- !app_assoc|].
    destruct js; simpl; now rewrite <- !app_assoc.
Qed.

(** ** The fetch loop *)

Lemma pacing_fetch_events n r : pacing (fetch_events n r) = [EvFetchPublicKey n].
Proof.
  unfold fetch_events, pacing. destruct r as [[] [e|] g]; reflexivity.
Qed.

Lemma fetches_fetch_events n r : fetches (fetch_events n r) = 1%nat.
Proof.
  unfold fetch_events, fetches. destruct r as [[] [e|] g]; reflexivity.
Qed.

Lemma key_events_fetch_events n r :
  Forall (fun ev => is_key_event ev = true) (fetch_events n r).
Proof.
  unfold fetch_events. destruct r as [[] [e|] g]; repeat constructor.
Qed.

Lemma pacing_app e1 e2 : pacing (e1 ++ e2) = pacing e1 ++ pacing e2.
Proof. apply List.filter_app. Qed.

Lemma fetches_app e1 e2 : fetches (e1 ++ e2) = (fetches e1 + fetches e2)%nat.
Proof. unfold fetches. now rewrite List.filter_app, List.length_app. Qed.

Lemma fetch_fails_shift w n evs i :
  fetch_fails (advance w n evs) i -> fetch_fails w (i + n).
Proof.
  unfold fetch_fails; simpl. now rewrite Nat.add_assoc.
Qed.

Lemma fetch_returns_shift w n evs i k :
  fetch_returns (advance w n evs) i k -> fetch_returns w (i + n) k.
Proof.
  unfold fetch_returns; simpl. now rewrite Nat.add_assoc.
Qed.

(** A run of the loop either uses up its budget on failures and gives
    [None] with the cache untouched, or stops at the first fetch that
    returns and caches what it returned. *)
Lemma get_public_key_loop_run budget reties w :
  exists n evs k,
    (n <= budget)%nat /\ fetches evs = n /\
    Forall (fun ev => is_key_event ev = true) evs /\
    ((k = PNone /\ n = budget /\
      (forall i, (i < budget)%nat -> fetch_fails w i) /\
      get_public_key_loop budget reties w = (inr PNone, advance w n evs) /\
      pacing evs = schedule (fetch_calls w) budget)
     \/
     (exists N, n = S N /\
      (forall i, (i < N)%nat -> fetch_fails w i) /\
      fetch_returns w N k /\
      get_public_key_loop budget reties w = (inr k, set_publicKey k (advance w n evs)) /\
      pacing evs = schedule (fetch_calls w) N ++ [EvFetchPublicKey (N + fetch_calls w)])).
Proof.
  revert reties w. induction budget as [|b IH]; intros reties w.
  - exists O, [EvLog ERROR "failed to get public key in all retries" []], PNone.
    split; [lia|]. split; [reflexivity|]. split; [repeat constructor|].
    left. repeat split; try reflexivity. intros i Hi; lia.
  - set (r := authenticator w (fetch_calls w)).
    destruct (fetch_outcome r) as [e|k] eqn:E.
    + set (w1 := advance w 1
                   (fetch_events (fetch_calls w) r ++
                    [EvLog ERROR "could not get public key from frontegg, retry number - "
                       [LNat (S reties); LExc e]; EvSleep (SecInt 1)])).
      assert (Hstep : get_public_key_loop (S b) reties w =
                      get_public_key_loop b (S reties) w1).
      { cbn [get_public_key_loop]. unfold try_except at 1, bind at 1.
        rewrite fetch_public_key_run. fold r. rewrite E.
        unfold bind, log, sleep, modify. rewrite !emit_advance.
        rewrite <- app_assoc. reflexivity. }
      destruct (IH (S reties) w1) as (n & evs & k & Hn & Hf & Hk & Hcase).
      exists (S n), (fetch_events (fetch_calls w) r ++
                [EvLog ERROR "could not get public key from frontegg, retry number - "
                   [LNat (S reties); LExc e]; EvSleep (SecInt 1)] ++ evs), k.
      split; [lia|]. split.
      { rewrite fetches_app, fetches_fetch_events.
        unfold fetches in *. simpl. now rewrite Hf. }
      split.
      { apply Forall_app; split; [apply key_events_fetch_events|].
        repeat constructor. exact Hk. }
      assert (Hfirst : fetch_fails w 0).
      { exists e. exact E. }
      destruct Hcase as [(-> & -> & Hall & Hrun & Hp) | (N & -> & Hall & Hret & Hrun & Hp)].
      * left. repeat split; try reflexivity.
        -- intros [|i] Hi; [exact Hfirst|].
           replace (S i) with (i + 1)%nat by lia.
           eapply fetch_fails_shift, Hall. lia.
        -- rewrite Hstep, Hrun. unfold w1. rewrite advance_advance, <- app_assoc.
           replace (b + 1)%nat with (S b) by lia. reflexivity.
        -- rewrite pacing_app, pacing_fetch_events. cbn [app].
           change (pacing (?a :: ?b :: evs)) with (EvSleep (SecInt 1) :: pacing evs).
           rewrite Hp. reflexivity.
      * right. exists (S N). repeat split; try reflexivity.
        -- intros [|i] Hi; [exact Hfirst|].
           replace (S i) with (i + 1)%nat by lia.
           eapply fetch_fails_shift, Hall. lia.
        -- replace (S N) with (N + 1)%nat by lia.
           eapply fetch_returns_shift, Hret.
        -- rewrite Hstep, Hrun. unfold w1. rewrite advance_advance, <- app_assoc.
           replace (S N + 1)%nat with (S (S N)) by lia. reflexivity.
        -- rewrite pacing_app, pacing_fetch_events. cbn [app].
           change (pacing (?a :: ?b :: evs)) with (EvSleep (SecInt 1) :: pacing evs).
           rewrite Hp. cbn [schedule app]. unfold w1; simpl.
           repeat f_equal. lia.
    + exists 1%nat, (fetch_events (fetch_calls w) r), k.
      split; [lia|]. split; [apply fetches_fetch_events|].
      split; [apply key_events_fetch_events|].
      right. exists O. repeat split; try reflexivity.
      * intros i Hi; lia.
      * exact E.
      * cbn [get_public_key_loop]. unfold try_except at 1, bind at 1.
        rewrite fetch_public_key_run. fold r. rewrite E. reflexivity.
      * apply pacing_fetch_events.
Qed.

Lemma get_public_key_cached w :
  truthy (publicKey w) = true -> get_public_key w = (inr (publicKey w), w).
Proof.
  intros H. unfold get_public_key, bind, gets. now rewrite H.
Qed.

Lemma get_public_key_uncached w :
  truthy (publicKey w) = false ->
  get_public_key w =
  get_public_key_loop 10 0
    (advance w 0 [EvLog INFO "could not find public key locally, will fetch public key" []]).
Proof.
  intros H. unfold get_public_key, bind, gets, log, modify. now rewrite H.
Qed.

(** ** What a computation adds to the trace *)

Section Appends.
Context (P : Event -> Prop).

Lemma appends_ret {A} (a : A) : appends P (ret a).
Proof. intros w; exists []; simpl. now rewrite app_nil_r. Qed.

Lemma appends_raise {A} e : appends P (@raise A e).
Proof. intros w; exists []; simpl. now rewrite app_nil_r. Qed.

Lemma appends_lift {A} (o : Outcome A) : appends P (lift o).
Proof. intros w; exists []; simpl. now rewrite app_nil_r. Qed.

Lemma appends_gets {A} (f : World -> A) : appends P (gets f).
Proof. intros w; exists []; simpl. now rewrite app_nil_r. Qed.

Lemma appends_emit ev : P ev -> appends P (modify (emit ev)).
Proof. intros H w; exists [ev]; simpl. split; [reflexivity|]. now constructor. Qed.

Lemma appends_quiet (f : World -> World) :
  (forall w, trace (f w) = trace w) -> appends P (modify f).
Proof. intros H w; exists []; simpl. now rewrite H, app_nil_r. Qed.

Lemma appends_bind {A B} (m : M A) (k : A -> M B) :
  appends P m -> (forall a, appends P (k a)) -> appends P (bind m k).
Proof.
  intros Hm Hk w. unfold bind. destruct (Hm w) as (e1 & T1 & F1).
  destruct (m w) as [[e|a] w1]; simpl in *.
  - now exists e1.
  - destruct (Hk a w1) as (e2 & T2 & F2). exists (e1 ++ e2).
    rewrite T2, T1, app_assoc. split; [reflexivity|]. now apply Forall_app.
Qed.

Lemma appends_try {A} (m : M A) (h : PyExc -> M A) :
  appends P m -> (forall e, appends P (h e)) -> appends P (try_except m h).
Proof.
  intros Hm Hh w. unfold try_except. destruct (Hm w) as (e1 & T1 & F1).
  destruct (m w) as [[e|a] w1]; simpl in *.
  - destruct (Hh e w1) as (e2 & T2 & F2). exists (e1 ++ e2).
    rewrite T2, T1, app_assoc. split; [reflexivity|]. now apply Forall_app.
  - now exists e1.
Qed.
End Appends.

Ltac appends_step :=
  first
    [ apply appends_bind; [|intros ?]
    | apply appends_try; [|intros ?]
    | apply appends_ret
    | apply appends_raise
    | apply appends_lift
    | apply appends_gets
    | apply appends_emit
    | apply appends_quiet; intros ?; reflexivity ].

(** ** The key provider as a whole *)

Lemma fetch_fails_advance0 w evs i :
  fetch_fails (advance w 0 evs) i <-> fetch_fails w i.
Proof. reflexivity. Qed.

Lemma fails_not_returns w i k : fetch_fails w i -> fetch_returns w i k -> False.
Proof.
  intros [e He] Hr. unfold fetch_returns in Hr. congruence.
Qed.

(** With nothing usable cached: ten failures and [None], or the first
    fetch that returns, cached and returned. *)
Lemma get_public_key_run w :
  truthy (publicKey w) = false ->
  exists n evs k,
    (n <= 10)%nat /\ fetches evs = n /\
    Forall (fun ev => is_key_event ev = true) evs /\
    ((k = PNone /\ n = 10%nat /\
      (forall i, (i < 10)%nat -> fetch_fails w i) /\
      get_public_key w = (inr PNone, advance w n evs) /\
      pacing evs = schedule (fetch_calls w) 10)
     \/
     (exists N, n = S N /\
      (forall i, (i < N)%nat -> fetch_fails w i) /\
      fetch_returns w N k /\
      get_public_key w = (inr k, set_publicKey k (advance w n evs)) /\
      pacing evs = schedule (fetch_calls w) N ++ [EvFetchPublicKey (N + fetch_calls w)])).
Proof.
  intros Hc. rewrite (get_public_key_uncached w Hc).
  set (l := EvLog INFO "could not find public key locally, will fetch public key" []).
  destruct (get_public_key_loop_run 10 0 (advance w 0 [l]))
    as (n & evs & k & Hn & Hf & Hk & Hcase).
  exists n, (l :: evs), k. split; [exact Hn|]. split; [exact Hf|].
  split; [constructor; [reflexivity|exact Hk]|].
  destruct Hcase as [(Hk0 & Hn0 & Hall & Hrun & Hp) | (N & HN & Hall & Hret & Hrun & Hp)].
  - left. repeat split; try assumption.
    rewrite Hrun, advance_advance. now rewrite Nat.add_0_r.
  - right. exists N. repeat split; try assumption.
    rewrite Hrun, advance_advance. now rewrite Nat.add_0_r.
Qed.

(** The first fetch that returns decides the run. *)
Lemma get_public_key_first_success w N k :
  truthy (publicKey w) = false ->
  (N < 10)%nat ->
  (forall i, (i < N)%nat -> fetch_fails w i) ->
  fetch_returns w N k ->
  exists evs,
    fetches evs = S N /\
    Forall (fun ev => is_key_event ev = true) evs /\
    get_public_key w = (inr k, set_publicKey k (advance w (S N) evs)) /\
    pacing evs = schedule (fetch_calls w) N ++ [EvFetchPublicKey (N + fetch_calls w)].
Proof.
  intros Hc HN Hall Hret.
  destruct (get_public_key_run w Hc) as (n & evs & k' & Hn & Hf & Hk & Hcase).
  destruct Hcase as [(_ & _ & Hall' & _ & _) | (N' & -> & Hall' & Hret' & Hrun & Hp)].
  - exfalso. eapply fails_not_returns; [apply Hall', HN|exact Hret].
  - assert (N' = N) as ->.
    { destruct (Nat.lt_trichotomy N' N) as [Hlt|[Heq|Hgt]]; [|exact Heq|].
      - exfalso. eapply fails_not_returns; [apply Hall, Hlt|exact Hret'].
      - exfalso. eapply fails_not_returns; [apply Hall', Hgt|exact Hret]. }
    assert (k' = k) as ->.
    { unfold fetch_returns in *. congruence. }
    exists evs. auto.
Qed.

(** When every fetch fails the run ends after the tenth. *)
Lemma get_public_key_all_fail w :
  truthy (publicKey w) = false ->
  (forall i, (i < 10)%nat -> fetch_fails w i) ->
  exists evs,
    fetches evs = 10%nat /\
    Forall (fun ev => is_key_event ev = true) evs /\
    get_public_key w = (inr PNone, advance w 10 evs) /\
    pacing evs = schedule (fetch_calls w) 10.
Proof.
  intros Hc Hall.
  destruct (get_public_key_run w Hc) as (n & evs & k' & Hn & Hf & Hk & Hcase).
  destruct Hcase as [(_ & -> & _ & Hrun & Hp) | (N' & -> & Hall' & Hret' & Hrun & Hp)].
  - exists evs. auto.
  - exfalso. eapply fails_not_returns; [apply Hall|exact Hret']. lia.
Qed.

(** In every case the call returns, having fetched at most ten times
    and touched nothing but the cache, the counter and the trace. *)
Lemma get_public_key_total w :
  exists k n evs o,
    get_public_key w = (inr k, with_key o (advance w n evs)) /\
    (n <= 10)%nat /\ fetches evs = n /\
    Forall (fun ev => is_key_event ev = true) evs /\
    (truthy (publicKey w) = true -> k = publicKey w /\ n = O /\ evs = []).
Proof.
  destruct (truthy (publicKey w)) eqn:Hc.
  - exists (publicKey w), O, [], None. rewrite (get_public_key_cached w Hc).
    simpl. rewrite advance_zero. repeat split; auto; lia.
  - destruct (get_public_key_run w Hc) as (n & evs & k & Hn & Hf & Hk & Hcase).
    destruct Hcase as [(-> & _ & _ & Hrun & _) | (N & _ & _ & _ & Hrun & _)].
    + exists PNone, n, evs, None. repeat split; auto; discriminate.
    + exists k, n, evs, (Some k). repeat split; auto; discriminate.
Qed.

(** ** The orchestrator *)

Lemma select_resolver_none type resolvers :
  Forall (fun r => should_handle r type = false) resolvers ->
  select_resolver type resolvers = None.
Proof.
  induction 1 as [|r rest Hr _ IH]; simpl; [reflexivity|]. now rewrite Hr.
Qed.

Lemma extract_token_run token type w :
  exists evs,
    extract_token token type w = (inr (stripped token type), advance w 0 evs) /\
    (evs = [] /\ (is_jwt_type type = false \/ exists s, token = PStr s) \/
     evs = [EvLog ERROR "Failed to extract token - " [LVal token]] /\
     is_jwt_type type = true /\ forall s, token <> PStr s).
Proof.
  unfold extract_token, stripped. destruct (is_jwt_type type).
  - unfold try_except, lift.
    destruct token; simpl;
      try (eexists; split; [reflexivity|right; repeat split; congruence]).
    exists []. rewrite advance_zero. split; [reflexivity|]. left. split; [reflexivity|].
    right. now exists s.
  - exists []. unfold ret. rewrite advance_zero. auto.
Qed.

Lemma emit_with_key ev o w : emit ev (with_key o w) = with_key o (emit ev w).
Proof. destruct o; reflexivity. Qed.

(** The whole call: the key phase, then either no resolver or the
    answer of the first resolver that claims the type. *)
Lemma validate_identity_on_token_run token options type w :
  exists key n evs o,
    (n <= 10)%nat /\ fetches evs = n /\
    Forall (fun ev => is_key_event ev = true) evs /\
    (truthy (publicKey w) = true ->
     key = publicKey w /\ n = O /\ Forall (fun ev => is_network ev = false) evs) /\
    (truthy (publicKey w) = false ->
     (forall i, (i < 10)%nat -> fetch_fails w i) -> key = PNone /\ n = 10%nat) /\
    ((forall s, token <> PStr s) -> is_jwt_type type = true ->
     In (EvLog ERROR "Failed to extract token - " [LVal token]) evs) /\
    validate_identity_on_token token options type w =
    match select_resolver type (tokenResolvers w) with
    | None =>
        (inl UnauthenticatedException,
         with_key o (advance w n (evs ++ [EvLog ERROR "Failed to find token resolver" []])))
    | Some r =>
        (validate_token r (stripped token type) key options,
         with_key o (advance w n
           (evs ++ [EvValidateToken (resolver_name r) (stripped token type) key options])))
    end.
Proof.
  destruct (extract_token_run token type w) as (e0 & Hx & He0).
  set (w0 := advance w 0 e0) in *.
  destruct (get_public_key_total w0) as (k & n & e1 & o & Hg & Hn & Hf & Hk & Hcached).
  exists k, n, (e0 ++ e1), o.
  split; [exact Hn|]. split.
  { rewrite fetches_app, Hf. destruct He0 as [(-> & _)|(-> & _)]; reflexivity. }
  split.
  { apply Forall_app; split; [|exact Hk].
    destruct He0 as [(-> & _)|(-> & _)]; repeat constructor. }
  split.
  { intros Hc. destruct (Hcached Hc) as (-> & -> & ->). repeat split.
    rewrite app_nil_r. destruct He0 as [(-> & _)|(-> & _)]; repeat constructor. }
  split.
  { intros Hc Hall.
    destruct (get_public_key_all_fail w0 Hc) as (e1' & _ & _ & Hrun & _).
    { intros i Hi. apply fetch_fails_advance0, Hall, Hi. }
    rewrite Hrun in Hg.
    pose proof (f_equal fst Hg) as Hk0.
    pose proof (f_equal (fun p => fetch_calls (snd p)) Hg) as Hc0.
    simpl in Hk0, Hc0. split; [congruence|].
    destruct o; simpl in Hc0; lia. }
  split.
  { intros Hns Hj. apply in_or_app. left.
    destruct He0 as [(_ & [Hj'|[s Hs]])|(-> & _)]; [congruence| |now left].
    now destruct (Hns s). }
  unfold validate_identity_on_token, bind at 1. rewrite Hx.
  unfold bind at 1, try_except. rewrite Hg.
  unfold bind at 1, gets.
  assert (Hres : tokenResolvers (with_key o (advance w0 n e1)) = tokenResolvers w).
  { destruct o; reflexivity. }
  rewrite Hres.
  assert (Hw : forall ev, emit ev (with_key o (advance w0 n e1)) =
                          with_key o (advance w n ((e0 ++ e1) ++ [ev]))).
  { intros ev. rewrite emit_with_key, emit_advance. unfold w0.
    rewrite advance_advance, Nat.add_0_r, app_assoc. reflexivity. }
  destruct (select_resolver type (tokenResolvers w)) as [r|].
  - unfold call_validate_token, bind, modify, lift, ret. rewrite Hw.
    destruct (validate_token r (stripped token type) k options); reflexivity.
  - unfold bind, log, modify, raise. rewrite Hw. reflexivity.
Qed.

(** ** Claims on the key provider *)



(** C5: with no key cached, [get_public_key] fetches again after any
    exception of a fetch, sleeping one second after each failure, and
    stops at ten fetches: an endpoint that fails every time is called
    ten times, never an eleventh, and the call then returns [None]. *)
Theorem get_public_key_at_most_ten_fetches (w : World) :
  truthy (publicKey w) = false ->
  exists evs,
    trace (snd (get_public_key w)) = trace w ++ evs /\
    fetch_calls (snd (get_public_key w)) = (fetches evs + fetch_calls w)%nat /\
    (fetches evs <= 10)%nat /\
    (forall N k,
        (N < 10)%nat ->
        (forall i, (i < N)%nat -> fetch_fails w i) ->
        fetch_returns w N k ->
        pacing evs = schedule (fetch_calls w) N ++ [EvFetchPublicKey (N + fetch_calls w)]) /\
    ((forall i, (i < 10)%nat -> fetch_fails w i) ->
     fst (get_public_key w) = inr PNone /\
     fetches evs = 10%nat /\
     pacing evs = schedule (fetch_calls w) 10).
Proof.
  intros Hc.
  destruct (get_public_key_run w Hc) as (n & evs & k & Hn & Hf & _ & Hcase).
  exists evs.
  assert (Hw : trace (snd (get_public_key w)) = trace w ++ evs /\
               fetch_calls (snd (get_public_key w)) = (fetches evs + fetch_calls w)%nat).
  { destruct Hcase as [(_ & _ & _ & -> & _) | (N & _ & _ & _ & -> & _)];
      simpl; now rewrite Hf. }
  destruct Hw as [Ht Hfc]. split; [exact Ht|]. split; [exact Hfc|].
  split; [lia|]. split.
  - intros N k' HN Hall Hret.
    destruct (get_public_key_first_success w N k' Hc HN Hall Hret)
      as (evs' & _ & _ & Hrun & Hp).
    rewrite Hrun in Ht. simpl in Ht. apply app_inv_head in Ht. now subst evs'.
  - intros Hall.
    destruct (get_public_key_all_fail w Hc Hall) as (evs' & Hf' & _ & Hrun & Hp).
    rewrite Hrun in Ht. simpl in Ht. apply app_inv_head in Ht. subst evs'.
    rewrite Hrun. auto.
Qed.

Lemma get_public_key_at_most_ten_fetches_witness :
  truthy (publicKey unreachable_client) = false /\
  (fetch_calls (snd (get_public_key unreachable_client)) <= 10)%nat.
Proof.
  split; [reflexivity|].
  destruct (get_public_key_at_most_ten_fetches unreachable_client eq_refl)
    as (evs & _ & Hfc & Hle & _).
  rewrite Hfc. change (fetch_calls unreachable_client) with O. lia.
Defined.



Lemma assoc_get_missing key fields :
  has_field key fields = false -> assoc_get key fields = PNone.
Proof.
  induction fields as [|[k v] rest IH]; simpl; [reflexivity|].
  destruct (String.eqb k key); simpl; [discriminate|exact IH].
Qed.

(** C10: a fetch answered with a success status and a JSON object
    without [publicKey] returns [None] and raises nothing;
    [get_public_key] takes it as the fetched value: it returns [None]
    after that single fetch, with no sleep and no second attempt, the
    cache holds [None], and the next call fetches again. *)
Theorem missing_public_key_field_not_cached
    (w : World) (response : Response) (fields : list (string * PyVal)) :
  let reply := authenticator w (fetch_calls w) in
  (should_refresh_vendor_token reply = true -> refresh_vendor_token reply = None) ->
  vendor_session_get reply = inr response ->
  raise_for_status response = None ->
  json response = inr (PDict fields) ->
  has_field "publicKey" fields = false ->
  fst (fetch_public_key w) = inr PNone /\
  (truthy (publicKey w) = false ->
   let w' := snd (get_public_key w) in
   fst (get_public_key w) = inr PNone /\
   publicKey w' = PNone /\
   fetch_calls w' = S (fetch_calls w) /\
   (exists evs, trace w' = trace w ++ evs /\
                pacing evs = [EvFetchPublicKey (fetch_calls w)]) /\
   (fetch_calls w' < fetch_calls (snd (get_public_key w')))%nat).
Proof.
  intros reply Hrefresh Hget Hstatus Hjson Hfield.
  assert (Hout : fetch_outcome reply = inr PNone).
  { unfold fetch_outcome.
    destruct (should_refresh_vendor_token reply);
      [rewrite (Hrefresh eq_refl)|];
      rewrite Hget, Hstatus, Hjson; simpl; now rewrite assoc_get_missing. }
  split.
  - rewrite fetch_public_key_run. exact Hout.
  - intros Hc w'.
    destruct (get_public_key_first_success w 0 PNone Hc) as (evs & _ & _ & Hrun & Hp).
    + lia.
    + intros i Hi; lia.
    + exact Hout.
    + subst w'. rewrite Hrun. simpl. repeat split.
      * exists evs. split; [reflexivity|exact Hp].
      * set (u := set_publicKey PNone (advance w 1 evs)).
        destruct (get_public_key_run u eq_refl) as (n & evs' & k & _ & _ & _ & Hcase).
        destruct Hcase as [(_ & -> & _ & -> & _) | (N & -> & _ & _ & -> & _)];
          simpl; lia.
Qed.

Lemma missing_public_key_field_not_cached_witness :
  has_field "publicKey" [("other", PStr "x")] = false /\
  fst (get_public_key keyless_client) = inr PNone /\
  fetch_calls (snd (get_public_key keyless_client)) = 1%nat /\
  (1 < fetch_calls (snd (get_public_key (snd (get_public_key keyless_client)))))%nat.
Proof.
  split; [reflexivity|].
  destruct (missing_public_key_field_not_cached keyless_client
              {| raise_for_status := None; json := inr (PDict [("other", PStr "x")]) |}
              [("other", PStr "x")])
    as (_ & H).
  - discriminate.
  - reflexivity.
  - reflexivity.
  - reflexivity.
  - reflexivity.
  - destruct (H eq_refl) as (Hr & _ & Hn & _ & Hnext).
    split; [exact Hr|]. split; [exact Hn|].
    rewrite Hn in Hnext. exact Hnext.
Defined.

(** ** Claims on the orchestrator *)

Lemma key_event_not_validate ev : is_key_event ev = true -> is_validate ev = false.
Proof. destruct ev; simpl; congruence. Qed.

Lemma trace_with_key o w : trace (with_key o w) = trace w.
Proof. destruct o; reflexivity. Qed.

Lemma fetch_calls_with_key o w : fetch_calls (with_key o w) = fetch_calls w.
Proof. destruct o; reflexivity. Qed.

(** The call when a resolver claims the type: its answer, as it is. *)
Lemma validate_identity_on_token_claimed token options type w r :
  select_resolver type (tokenResolvers w) = Some r ->
  exists key evs,
    fst (validate_identity_on_token token options type w) =
      validate_token r (stripped token type) key options /\
    trace (snd (validate_identity_on_token token options type w)) =
      trace w ++ evs ++ [EvValidateToken (resolver_name r) (stripped token type) key options] /\
    Forall (fun ev => is_key_event ev = true) evs /\
    (truthy (publicKey w) = true -> key = publicKey w) /\
    (truthy (publicKey w) = false ->
     (forall i, (i < 10)%nat -> fetch_fails w i) -> key = PNone) /\
    ((forall s, token <> PStr s) -> is_jwt_type type = true ->
     In (EvLog ERROR "Failed to extract token - " [LVal token]) evs).
Proof.
  intros Hsel.
  destruct (validate_identity_on_token_run token options type w)
    as (key & n & evs & o & _ & _ & Hk & Hcached & Hfail & Hlog & Hrun).
  rewrite Hsel in Hrun. exists key, evs. rewrite Hrun. cbn [fst snd].
  rewrite trace_with_key. repeat split; auto.
  - intros Hc. now destruct (Hcached Hc).
  - intros Hc Hall. now destruct (Hfail Hc Hall).
Qed.

(** The call when no resolver claims the type. *)
Lemma validate_identity_on_token_unclaimed token options type w :
  select_resolver type (tokenResolvers w) = None ->
  exists evs,
    fst (validate_identity_on_token token options type w) = inl UnauthenticatedException /\
    trace (snd (validate_identity_on_token token options type w)) =
      trace w ++ evs ++ [EvLog ERROR "Failed to find token resolver" []] /\
    fetch_calls (snd (validate_identity_on_token token options type w)) =
      (fetches evs + fetch_calls w)%nat /\
    (fetches evs <= 10)%nat /\
    Forall (fun ev => is_key_event ev = true) evs /\
    (truthy (publicKey w) = true ->
     fetches evs = O /\ Forall (fun ev => is_network ev = false) evs).
Proof.
  intros Hsel.
  destruct (validate_identity_on_token_run token options type w)
    as (key & n & evs & o & Hn & Hf & Hk & Hcached & _ & _ & Hrun).
  rewrite Hsel in Hrun. exists evs. rewrite Hrun. cbn [fst snd].
  rewrite trace_with_key, fetch_calls_with_key. simpl.
  repeat split; auto; try lia.
  - destruct (Hcached H) as (_ & Hn0 & _). lia.
  - now destruct (Hcached H) as (_ & _ & Hnet).
Qed.

Lemma get_public_key_ignores_trace w e0 :
  fst (get_public_key (advance w 0 e0)) = fst (get_public_key w) /\
  publicKey (snd (get_public_key (advance w 0 e0))) = publicKey (snd (get_public_key w)) /\
  fetch_calls (snd (get_public_key (advance w 0 e0))) = fetch_calls (snd (get_public_key w)).
Proof.
  destruct (truthy (publicKey w)) eqn:Hc.
  - rewrite (get_public_key_cached w Hc), (get_public_key_cached (advance w 0 e0) Hc).
    repeat split.
  - destruct (get_public_key_run w Hc) as (n & evs & k & Hn & _ & _ & Hcase).
    destruct Hcase as [(_ & -> & Hall & Hrun & _) | (N & -> & Hall & Hret & Hrun & _)].
    + destruct (get_public_key_all_fail (advance w 0 e0) Hc) as (evs' & _ & _ & Hrun' & _).
      { intros i Hi. apply fetch_fails_advance0, Hall, Hi. }
      rewrite Hrun, Hrun'. cbn. repeat split.
    + destruct (get_public_key_first_success (advance w 0 e0) N k Hc)
        as (evs' & _ & _ & Hrun' & _).
      { lia. }
      { intros i Hi. apply fetch_fails_advance0, Hall, Hi. }
      { exact Hret. }
      rewrite Hrun, Hrun'. cbn. repeat split.
Qed.

Lemma validate_identity_on_token_world token options type w :
  exists e0 ev,
    snd (validate_identity_on_token token options type w) =
    emit ev (snd (get_public_key (advance w 0 e0))).
Proof.
  destruct (extract_token_run token type w) as (e0 & Hx & _).
  destruct (get_public_key_total (advance w 0 e0)) as (k & n & e1 & o & Hg & _).
  exists e0.
  unfold validate_identity_on_token, bind at 1. rewrite Hx.
  unfold bind at 1, try_except. rewrite Hg.
  unfold bind at 1, gets. cbn [snd].
  destruct (select_resolver type (tokenResolvers (with_key o (advance (advance w 0 e0) n e1))))
    as [r|].
  - unfold call_validate_token, bind, modify, lift, ret.
    destruct (validate_token r (stripped token type) k options); eexists; reflexivity.
  - unfold bind, log, modify, raise. eexists; reflexivity.
Qed.

Lemma validate_identity_on_token_cache token options type w :
  publicKey (snd (validate_identity_on_token token options type w)) =
    publicKey (snd (get_public_key w)) /\
  fetch_calls (snd (validate_identity_on_token token options type w)) =
    fetch_calls (snd (get_public_key w)).
Proof.
  destruct (validate_identity_on_token_world token options type w) as (e0 & ev & ->).
  destruct (get_public_key_ignores_trace w e0) as (_ & Hk & Hf).
  cbn [publicKey fetch_calls emit]. now rewrite Hk, Hf.
Qed.

(** C1: what the code does when the key cannot be obtained.  With
    nothing cached and every one of the ten fetches failing,
    [get_public_key] returns [None] instead of raising, so the handler
    around it never runs: the first resolver that claims the type is
    called with [None] for a key, and its answer is the answer of
    [validate_identity_on_token]. *)
Theorem key_unavailable_reaches_resolver
    (w : World) (token options type : PyVal) (r : Resolver) :
  truthy (publicKey w) = false ->
  (forall i, (i < 10)%nat -> fetch_fails w i) ->
  select_resolver type (tokenResolvers w) = Some r ->
  fst (validate_identity_on_token token options type w) =
    validate_token r (stripped token type) PNone options /\
  In (EvValidateToken (resolver_name r) (stripped token type) PNone options)
     (trace (snd (validate_identity_on_token token options type w))).
Proof.
  intros Hc Hall Hsel.
  destruct (validate_identity_on_token_claimed token options type w r Hsel)
    as (key & evs & Hr & Ht & _ & _ & Hfail & _).
  rewrite (Hfail Hc Hall) in *. split; [exact Hr|].
  rewrite Ht. apply in_or_app. right. apply in_or_app. right. now left.
Qed.

Lemma key_unavailable_reaches_resolver_witness :
  truthy (publicKey unreachable_client) = false /\
  fst (validate_identity_on_token (PStr "Bearer abc") PNone (PStr "JWT") unreachable_client) =
    inr (PDict [("sub", PStr "abc")]).
Proof.
  split; [reflexivity|].
  assert (Hall : forall i, (i < 10)%nat -> fetch_fails unreachable_client i).
  { intros i _. exists (OtherError "ConnectError" "connection refused"). reflexivity. }
  destruct (key_unavailable_reaches_resolver unreachable_client
              (PStr "Bearer abc") PNone (PStr "JWT") accepting_resolver
              eq_refl Hall eq_refl) as [Hr _].
  rewrite Hr. reflexivity.
Defined.

(** C2, as the claim has it, fails: the failure of the selected
    resolver leaves [validate_identity_on_token] as it was raised. *)
Lemma resolver_failure_escapes :
  validate_token rejecting_resolver (PStr "abc") sample_key PNone =
    inl (InvalidTokenError "Signature verification failed") /\
  fst (validate_identity_on_token (PStr "Bearer abc") PNone (PStr "JWT") rejecting_client) =
    inl (InvalidTokenError "Signature verification failed") /\
  fst (validate_identity_on_token (PStr "Bearer abc") PNone (PStr "JWT") rejecting_client) <>
    inl UnauthenticatedException.
Proof.
  split; [reflexivity|]. split; [reflexivity|]. discriminate.
Qed.

(** C2, amended: the call to the selected resolver is not guarded.
    Whatever [validate_token] raises comes out of
    [validate_identity_on_token] unchanged, and the identity it returns
    is returned unchanged. *)
Theorem resolver_outcome_passed_through
    (w : World) (token options type : PyVal) (r : Resolver) :
  select_resolver type (tokenResolvers w) = Some r ->
  exists key,
    In (EvValidateToken (resolver_name r) (stripped token type) key options)
       (trace (snd (validate_identity_on_token token options type w))) /\
    (forall e,
        validate_token r (stripped token type) key options = inl e ->
        fst (validate_identity_on_token token options type w) = inl e) /\
    (forall identity,
        validate_token r (stripped token type) key options = inr identity ->
        fst (validate_identity_on_token token options type w) = inr identity).
Proof.
  intros Hsel.
  destruct (validate_identity_on_token_claimed token options type w r Hsel)
    as (key & evs & Hr & Ht & _).
  exists key. split.
  - rewrite Ht. apply in_or_app. right. apply in_or_app. right. now left.
  - split; intros x Hx; now rewrite Hr.
Qed.

Lemma resolver_outcome_passed_through_witness :
  select_resolver (PStr "JWT") (tokenResolvers rejecting_client) = Some rejecting_resolver /\
  exists key,
    In (EvValidateToken "jwt" (PStr "abc") key PNone)
       (trace (snd (validate_identity_on_token (PStr "Bearer abc") PNone (PStr "JWT")
                      rejecting_client))).
Proof.
  split; [reflexivity|].
  destruct (resolver_outcome_passed_through rejecting_client
              (PStr "Bearer abc") PNone (PStr "JWT") rejecting_resolver eq_refl)
    as (key & Hin & _).
  exists key. exact Hin.
Defined.

(** C3, as the claim has it, fails: the key is looked up before the
    resolvers are scanned, so a client with nothing cached goes to the
    network although no resolver claims the type. *)
Lemma unclaimed_type_still_fetches :
  select_resolver (PStr "AccessToken") (tokenResolvers bare_client) = None /\
  fst (validate_identity_on_token (PStr "abc") PNone (PStr "AccessToken") bare_client) =
    inl UnauthenticatedException /\
  existsb is_network
    (trace (snd (validate_identity_on_token (PStr "abc") PNone (PStr "AccessToken")
                   bare_client))) = true /\
  fetch_calls (snd (validate_identity_on_token (PStr "abc") PNone (PStr "AccessToken")
                      bare_client)) = 1%nat.
Proof.
  repeat split; reflexivity.
Qed.

(** C3, amended: when no registered resolver claims the declared type
    the call fails with [UnauthenticatedException] and no resolver is
    called; the key is looked up all the same, before the resolvers are
    scanned: the cache and the fetch count after the call are those
    that [get_public_key] alone leaves.  So the call stays off the
    network when a key is already cached, and makes at least one and at
    most ten fetches when none is. *)
Theorem unclaimed_type_unauthenticated (w : World) (token options type : PyVal) :
  Forall (fun r => should_handle r type = false) (tokenResolvers w) ->
  fst (validate_identity_on_token token options type w) = inl UnauthenticatedException /\
  publicKey (snd (validate_identity_on_token token options type w)) =
    publicKey (snd (get_public_key w)) /\
  fetch_calls (snd (validate_identity_on_token token options type w)) =
    fetch_calls (snd (get_public_key w)) /\
  exists evs,
    trace (snd (validate_identity_on_token token options type w)) = trace w ++ evs /\
    Forall (fun ev => is_validate ev = false) evs /\
    fetch_calls (snd (validate_identity_on_token token options type w)) =
      (fetches evs + fetch_calls w)%nat /\
    (fetches evs <= 10)%nat /\
    (truthy (publicKey w) = false -> (1 <= fetches evs)%nat) /\
    (truthy (publicKey w) = true ->
     Forall (fun ev => is_network ev = false) evs /\
     fetch_calls (snd (validate_identity_on_token token options type w)) = fetch_calls w).
Proof.
  intros Hnone. apply select_resolver_none in Hnone.
  destruct (validate_identity_on_token_unclaimed token options type w Hnone)
    as (evs & Hr & Ht & Hfc & Hle & Hk & Hcached).
  destruct (validate_identity_on_token_cache token options type w) as [Hkey Hcount].
  split; [exact Hr|]. split; [exact Hkey|]. split; [exact Hcount|].
  exists (evs ++ [EvLog ERROR "Failed to find token resolver" []]).
  assert (Hfe : fetches (evs ++ [EvLog ERROR "Failed to find token resolver" []]) =
                fetches evs).
  { rewrite fetches_app. unfold fetches at 2. simpl. lia. }
  rewrite Hfe. split; [exact Ht|]. split.
  { apply Forall_app; split; [|repeat constructor].
    eapply Forall_impl; [exact Hk|]. apply key_event_not_validate. }
  split; [exact Hfc|]. split; [exact Hle|]. split.
  - intros Hc.
    destruct (get_public_key_run w Hc) as (n & evs' & k & _ & _ & _ & Hcase).
    assert (Hn : (1 + fetch_calls w <= fetch_calls (snd (get_public_key w)))%nat).
    { destruct Hcase as [(_ & -> & _ & -> & _) | (N & -> & _ & _ & -> & _)];
        cbn [snd fetch_calls advance set_publicKey]; lia. }
    rewrite <- Hcount, Hfc in Hn. lia.
  - intros Hc. destruct (Hcached Hc) as [H0 Hnet]. split.
    + apply Forall_app; split; [exact Hnet|repeat constructor].
    + rewrite Hfc, H0. reflexivity.
Qed.

Lemma unclaimed_type_unauthenticated_witness :
  Forall (fun r => should_handle r (PStr "AccessToken") = false) (tokenResolvers keyed_client) /\
  fst (validate_identity_on_token (PStr "abc") PNone (PStr "AccessToken") keyed_client) =
    inl UnauthenticatedException.
Proof.
  assert (H : Forall (fun r => should_handle r (PStr "AccessToken") = false)
                (tokenResolvers keyed_client)).
  { repeat constructor. }
  split; [exact H|].
  exact (proj1 (unclaimed_type_unauthenticated keyed_client
                  (PStr "abc") PNone (PStr "AccessToken") H)).
Defined.

(** ** Claims on the raw decode path *)

Lemma appends_call_jwt_decode P args :
  P (EvJwtDecode args) -> appends P (call_jwt_decode args).
Proof.
  intros H. unfold call_jwt_decode. repeat appends_step. exact H.
Qed.

Lemma appends_retry_loop P {A} tries delay (body : M A) :
  P (EvSleep (SecFloat delay)) -> appends P body -> appends P (retry_loop tries delay body).
Proof.
  intros Hs Hb. induction tries as [|[|n] IH].
  - apply appends_raise.
  - exact Hb.
  - change (appends P (try_except body
             (fun _ => bind (sleep (SecFloat delay))
                         (fun _ => retry_loop (S n) delay body)))).
    apply appends_try; [exact Hb|]. intros _.
    apply appends_bind; [apply appends_emit, Hs|]. intros _. exact IH.
Qed.

Lemma appends_get_jwt_data_body jwt_token verify public_key :
  appends decode_event_fixed (get_jwt_data_body jwt_token verify public_key).
Proof.
  unfold get_jwt_data_body. destruct (truthy verify);
    apply appends_call_jwt_decode; repeat split.
Qed.

Lemma appends_get_jwt_data jwt_token verify public_key :
  appends decode_event_fixed (get_jwt_data jwt_token verify public_key).
Proof.
  unfold get_jwt_data, retry. repeat appends_step.
  apply appends_retry_loop; [exact I|apply appends_get_jwt_data_body].
Qed.

Lemma appends_get_public_key P :
  (forall ev, is_key_event ev = true -> P ev) -> appends P get_public_key.
Proof.
  intros HP w.
  destruct (get_public_key_total w) as (k & n & evs & o & Hrun & _ & _ & Hk & _).
  exists evs. rewrite Hrun. cbn [snd]. rewrite trace_with_key. split; [reflexivity|].
  eapply Forall_impl; [exact Hk|]. exact HP.
Qed.

(** C6: every call this module makes to [jwt.decode] names RS256 as
    its one allowed algorithm and passes [verify_aud] as [False],
    whatever the token, the key and the [verify] flag, in the decorated
    [__get_jwt_data] under any retry setting and so in [decode_jwt];
    the body itself makes exactly one such call, with the key when
    [verify] holds and without it otherwise. *)
Theorem jwt_decode_fixed_algorithm_no_audience
    (w : World) (jwt_token verify public_key authorization_header : PyVal) :
  (exists args,
      trace (snd (get_jwt_data_body jwt_token verify public_key w)) =
        trace w ++ [EvJwtDecode args] /\
      decode_args_fixed args /\
      dc_token args = jwt_token /\
      dc_key args = (if truthy verify then Some public_key else None)) /\
  (exists evs,
      trace (snd (get_jwt_data jwt_token verify public_key w)) = trace w ++ evs /\
      Forall decode_event_fixed evs) /\
  (exists evs,
      trace (snd (decode_jwt authorization_header verify w)) = trace w ++ evs /\
      Forall decode_event_fixed evs).
Proof.
  split; [|split].
  - unfold get_jwt_data_body.
    destruct (truthy verify); eexists; (split; [reflexivity|]); repeat split.
  - apply appends_get_jwt_data.
  - revert w. change (appends decode_event_fixed (decode_jwt authorization_header verify)).
    unfold decode_jwt. destruct (negb (truthy authorization_header)).
    + apply appends_raise.
    + unfold log.
      apply appends_bind; [apply appends_emit; exact I|intros _].
      apply appends_bind; [apply appends_lift|intros t].
      apply appends_bind.
      { apply appends_get_public_key. intros [] H; try exact I; discriminate. }
      intros k.
      apply appends_bind; [apply appends_emit; exact I|intros _].
      apply appends_bind; [apply appends_get_jwt_data|intros d].
      apply appends_bind; [apply appends_emit; exact I|intros _].
      apply appends_bind; [apply appends_emit; exact I|intros _].
      apply appends_ret.
Qed.

Lemma decode_jwt_falsy_header w authorization_header verify :
  truthy authorization_header = false ->
  decode_jwt authorization_header verify w =
  (inl (InvalidTokenError "Authorization headers is missing"), w).
Proof.
  intros H. unfold decode_jwt. now rewrite H.
Qed.

(** C7: with [None] or the empty string for a header, [decode_jwt]
    raises [InvalidTokenError('Authorization headers is missing')] and
    has done nothing by then, for every value of [verify]: no fetch, no
    event, the world is as it was. *)
Theorem decode_jwt_header_missing (w : World) (authorization_header verify : PyVal) :
  authorization_header = PNone \/ authorization_header = PStr "" ->
  decode_jwt authorization_header verify w =
    (inl (InvalidTokenError "Authorization headers is missing"), w) /\
  fetch_calls (snd (decode_jwt authorization_header verify w)) = fetch_calls w /\
  trace (snd (decode_jwt authorization_header verify w)) = trace w.
Proof.
  intros H.
  assert (Hf : truthy authorization_header = false) by (destruct H; subst; reflexivity).
  rewrite (decode_jwt_falsy_header w authorization_header verify Hf). auto.
Qed.

Lemma decode_jwt_header_missing_witness :
  (PStr "" = PNone \/ PStr "" = PStr "") /\
  decode_jwt (PStr "") (PBool false) unreachable_client =
    (inl (InvalidTokenError "Authorization headers is missing"), unreachable_client).
Proof.
  assert (H : PStr "" = PNone \/ PStr "" = PStr "") by (right; reflexivity).
  split; [exact H|].
  exact (proj1 (decode_jwt_header_missing unreachable_client (PStr "") (PBool false) H)).
Defined.

(** ** Claims on the prefix stripping *)

Lemma replace_from_absent old new s :
  occurs old s = false -> replace_from old new 0 s = s.
Proof.
  induction s as [|c rest IH]; intros H; [reflexivity|].
  cbn [occurs] in H. apply orb_false_elim in H as [Hp Ho].
  cbn [replace_from]. rewrite Hp. f_equal. exact (IH Ho).
Qed.

Lemma prefix_append old rest : String.prefix old (String.append old rest) = true.
Proof.
  induction old as [|c old IH]; simpl.
  - now destruct rest.
  - destruct (ascii_dec c c) as [_|Hc]; [exact IH|now destruct Hc].
Qed.

Lemma replace_from_skip old new p rest :
  replace_from old new (String.length p) (String.append p rest) =
  replace_from old new 0 rest.
Proof.
  induction p as [|c p IH]; [reflexivity|]. exact IH.
Qed.

Lemma replace_from_match c old new rest :
  replace_from (String c old) new 0 (String.append (String c old) rest) =
  String.append new (replace_from (String c old) new 0 rest).
Proof.
  pose proof (prefix_append (String c old) rest) as Hp.
  pose proof (replace_from_skip (String c old) new old rest) as Hs.
  change (String.append (String c old) rest) with (String c (String.append old rest)) in *.
  cbn [replace_from]. rewrite Hp.
  change (Nat.pred (String.length (String c old))) with (String.length old).
  now rewrite Hs.
Qed.

Lemma str_replace_bearer_prefix rest :
  occurs "Bearer " rest = false ->
  str_replace (String.append "Bearer " rest) "Bearer " "" = rest.
Proof.
  intros H. unfold str_replace. rewrite replace_from_match.
  rewrite (replace_from_absent _ _ _ H). reflexivity.
Qed.

(** C8, as the claim has it, fails: a token that does not start with
    ["Bearer "] but holds it further on does not come out unchanged. *)
Lemma bearer_inside_token_removed :
  String.prefix "Bearer " "abc Bearer def" = false /\
  trace (snd (validate_identity_on_token (PStr "abc Bearer def") PNone (PStr "JWT")
                keyed_client)) =
    [EvValidateToken "jwt" (PStr "abc def") sample_key PNone] /\
  PStr "abc def" <> PStr "abc Bearer def".
Proof.
  split; [reflexivity|]. split; [reflexivity|]. discriminate.
Qed.

(** C8, amended: for the JWT type a string token has every occurrence
    of ["Bearer "] removed, wherever it stands.  So a token made of the
    prefix and a rest free of ["Bearer "] comes out as that rest, and a
    token free of ["Bearer "] comes out unchanged.  A token that is not
    a string is logged and kept as it is, and the call goes on: the
    resolver that claims the type receives the token so prepared. *)
Theorem bearer_occurrences_removed (w : World) (token options type : PyVal) :
  is_jwt_type type = true ->
  (forall s, token = PStr s ->
     stripped token type = PStr (str_replace s "Bearer " "") /\
     (forall rest, s = String.append "Bearer " rest -> occurs "Bearer " rest = false ->
        stripped token type = PStr rest) /\
     (occurs "Bearer " s = false -> stripped token type = token)) /\
  ((forall s, token <> PStr s) -> stripped token type = token) /\
  (forall r, select_resolver type (tokenResolvers w) = Some r ->
     exists key,
       In (EvValidateToken (resolver_name r) (stripped token type) key options)
          (trace (snd (validate_identity_on_token token options type w))) /\
       ((forall s, token <> PStr s) ->
        In (EvLog ERROR "Failed to extract token - " [LVal token])
           (trace (snd (validate_identity_on_token token options type w))))).
Proof.
  intros Hj. split; [|split].
  - intros s ->. unfold stripped. rewrite Hj. cbn [py_replace].
    split; [reflexivity|]. split.
    + intros rest -> Hrest. now rewrite str_replace_bearer_prefix.
    + intros Hs. unfold str_replace. now rewrite replace_from_absent.
  - intros Hns. unfold stripped. rewrite Hj.
    destruct token; try reflexivity. now destruct (Hns s).
  - intros r Hsel.
    destruct (validate_identity_on_token_claimed token options type w r Hsel)
      as (key & evs & _ & Ht & _ & _ & _ & Hlog).
    exists key. rewrite Ht. split.
    + apply in_or_app. right. apply in_or_app. right. now left.
    + intros Hns. apply in_or_app. right. apply in_or_app. left. now apply Hlog.
Qed.

Lemma bearer_occurrences_removed_witness :
  is_jwt_type (PStr "JWT") = true /\
  stripped (PStr "Bearer abc") (PStr "JWT") = PStr "abc" /\
  stripped (PInt 7) (PStr "JWT") = PInt 7.
Proof.
  split; [reflexivity|].
  destruct (bearer_occurrences_removed keyed_client (PStr "Bearer abc") PNone (PStr "JWT")
              eq_refl) as (Hs & _ & _).
  destruct (bearer_occurrences_removed keyed_client (PInt 7) PNone (PStr "JWT")
              eq_refl) as (_ & Hn & _).
  split.
  - destruct (Hs "Bearer abc" eq_refl) as (_ & Hrest & _).
    exact (Hrest "abc" eq_refl eq_refl).
  - apply Hn. intros s; discriminate.
Defined.

(** ** Claims on the module-level tunables *)






(** * Further properties *)

(** ** One fetch *)

(** X1: a fetch asks the authenticator to refresh the vendor token
    exactly when it says a refresh is due; when that refresh fails the
    fetch raises its error and the GET is never sent, and otherwise one
    GET with a timeout of 3 goes out. *)
Theorem fetch_refreshes_before_get (w : World) (reply : VendorReply) :
  authenticator w (fetch_calls w) = reply ->
  exists calls,
    trace (snd (fetch_public_key w)) = trace w ++ EvFetchPublicKey (fetch_calls w) :: calls /\
    (should_refresh_vendor_token reply = false ->
     calls = [EvGet identity_service_vendor_config 3]) /\
    (should_refresh_vendor_token reply = true -> refresh_vendor_token reply = None ->
     calls = [EvRefreshVendorToken; EvGet identity_service_vendor_config 3]) /\
    (forall e,
        should_refresh_vendor_token reply = true -> refresh_vendor_token reply = Some e ->
        calls = [EvRefreshVendorToken] /\ fst (fetch_public_key w) = inl e).
Proof.
  intros Hreply. rewrite fetch_public_key_run, Hreply. cbn [fst snd].
  unfold fetch_events, fetch_outcome, advance; cbn [trace].
  eexists. split; [reflexivity|].
  destruct reply as [sr rf g]; cbn.
  destruct sr, rf as [e'|]; repeat split; try discriminate; try reflexivity;
    intros; try discriminate; try congruence.
Qed.

Lemma fetch_refreshes_before_get_witness :
  authenticator stale_client (fetch_calls stale_client) = stale_reply /\
  fst (fetch_public_key stale_client) = inl (OtherError "AuthError" "refresh failed").
Proof.
  split; [reflexivity|].
  destruct (fetch_refreshes_before_get stale_client stale_reply eq_refl)
    as (calls & _ & _ & _ & H).
  exact (proj2 (H (OtherError "AuthError" "refresh failed") eq_refl eq_refl)).
Defined.

(** X2: a fetch never writes the cache, whatever it returns or raises,
    and counts as one fetch; and when the status check of the response
    raises, the fetch raises that error whatever the body holds, a key
    included. *)
Theorem fetch_leaves_cache_alone (w : World) :
  publicKey (snd (fetch_public_key w)) = publicKey w /\
  fetch_calls (snd (fetch_public_key w)) = S (fetch_calls w) /\
  forall response e,
    (should_refresh_vendor_token (authenticator w (fetch_calls w)) = true ->
     refresh_vendor_token (authenticator w (fetch_calls w)) = None) ->
    vendor_session_get (authenticator w (fetch_calls w)) = inr response ->
    raise_for_status response = Some e ->
    fst (fetch_public_key w) = inl e.
Proof.
  rewrite fetch_public_key_run. cbn [fst snd].
  split; [reflexivity|]. split; [reflexivity|].
  intros response e Hrefresh Hget Hstatus. unfold fetch_outcome.
  destruct (should_refresh_vendor_token (authenticator w (fetch_calls w)));
    [rewrite (Hrefresh eq_refl)|]; now rewrite Hget, Hstatus.
Qed.

Lemma fetch_leaves_cache_alone_witness :
  vendor_session_get (authenticator error_client (fetch_calls error_client)) =
    inr {| raise_for_status := Some (HTTPError "500 Server Error");
           json := inr (PDict [("publicKey", sample_key)]) |} /\
  fst (fetch_public_key error_client) = inl (HTTPError "500 Server Error") /\
  publicKey (snd (fetch_public_key error_client)) = PNone.
Proof.
  split; [reflexivity|].
  destruct (fetch_leaves_cache_alone error_client) as (Hk & _ & Hr).
  split.
  - apply (Hr {| raise_for_status := Some (HTTPError "500 Server Error");
                 json := inr (PDict [("publicKey", sample_key)]) |}).
    + discriminate.
    + reflexivity.
    + reflexivity.
  - rewrite Hk. reflexivity.
Defined.

(** ** The fetch loop, attempt by attempt *)

Lemma get_public_key_loop_retry b reties w e :
  fetch_outcome (authenticator w (fetch_calls w)) = inl e ->
  get_public_key_loop (S b) reties w =
  get_public_key_loop b (S reties)
    (advance w 1
       (fetch_events (fetch_calls w) (authenticator w (fetch_calls w)) ++
        [EvLog ERROR "could not get public key from frontegg, retry number - "
           [LNat (S reties); LExc e]; EvSleep (SecInt 1)])).
Proof.
  intros E. cbn [get_public_key_loop]. unfold try_except at 1, bind at 1.
  rewrite fetch_public_key_run, E.
  unfold bind, log, sleep, modify. rewrite !emit_advance.
  rewrite <- app_assoc. reflexivity.
Qed.

Lemma get_public_key_loop_done b reties w k :
  fetch_outcome (authenticator w (fetch_calls w)) = inr k ->
  get_public_key_loop (S b) reties w =
  (inr k, set_publicKey k
            (advance w 1 (fetch_events (fetch_calls w) (authenticator w (fetch_calls w))))).
Proof.
  intros E. cbn [get_public_key_loop]. unfold try_except at 1, bind at 1.
  rewrite fetch_public_key_run, E. reflexivity.
Qed.

Lemma failure_log_app e1 e2 : failure_log (e1 ++ e2) = failure_log e1 ++ failure_log e2.
Proof.
  induction e1 as [|ev e1 IH]; [reflexivity|]. cbn [app failure_log].
  destruct (failure_of ev); [cbn [app]; f_equal|]; exact IH.
Qed.

Lemma failure_log_fetch_events n r : failure_log (fetch_events n r) = [].
Proof.
  unfold fetch_events. destruct r as [[] [e|] g]; reflexivity.
Qed.

Lemma fetch_fails_unshift w n evs i :
  fetch_fails w (i + n) -> fetch_fails (advance w n evs) i.
Proof.
  unfold fetch_fails; simpl. now rewrite Nat.add_assoc.
Qed.

Lemma get_public_key_loop_failure_log budget reties w :
  exists evs,
    trace (snd (get_public_key_loop budget reties w)) = trace w ++ evs /\
    (length (failure_log evs) <= budget)%nat /\
    (forall i n e,
        nth_error (failure_log evs) i = Some (n, e) ->
        n = S (reties + i) /\
        fetch_outcome (authenticator w (i + fetch_calls w)) = inl e) /\
    (forall i,
        (i < budget)%nat ->
        (forall j, (j <= i)%nat -> fetch_fails w j) ->
        (i < length (failure_log evs))%nat).
Proof.
  revert reties w. induction budget as [|b IH]; intros reties w.
  - exists [EvLog ERROR "failed to get public key in all retries" []].
    split; [reflexivity|]. split; [cbn; lia|]. split.
    + intros [|i] n e H; discriminate.
    + intros i Hi; lia.
  - destruct (fetch_outcome (authenticator w (fetch_calls w))) as [e|k] eqn:E.
    + rewrite (get_public_key_loop_retry b reties w e E).
      set (fe := fetch_events (fetch_calls w) (authenticator w (fetch_calls w))).
      set (entry := EvLog ERROR "could not get public key from frontegg, retry number - "
                      [LNat (S reties); LExc e]).
      destruct (IH (S reties) (advance w 1 (fe ++ [entry; EvSleep (SecInt 1)])))
        as (evs & Ht & Hlen & Hnth & Hall).
      exists (fe ++ [entry; EvSleep (SecInt 1)] ++ evs).
      assert (Hlog : failure_log (fe ++ [entry; EvSleep (SecInt 1)] ++ evs) =
                     (S reties, e) :: failure_log evs).
      { rewrite failure_log_app. unfold fe. rewrite failure_log_fetch_events. reflexivity. }
      rewrite Hlog. split.
      { rewrite Ht. cbn [trace advance]. now rewrite <- !app_assoc. }
      split; [cbn [length]; lia|]. split.
      * intros [|i] n e' H.
        -- cbn in H. inversion H; subst. split; [f_equal; lia|exact E].
        -- cbn [nth_error] in H. destruct (Hnth i n e' H) as [Hn Ho]. split; [lia|].
           cbn [authenticator fetch_calls advance] in Ho.
           replace (S i + fetch_calls w)%nat with (i + (1 + fetch_calls w))%nat by lia.
           exact Ho.
      * intros [|i] Hi Hfail; [cbn [length]; lia|].
        cbn [length]. apply -> Nat.succ_lt_mono. apply Hall; [lia|].
        intros j Hj. apply fetch_fails_unshift.
        replace (j + 1)%nat with (S j) by lia. apply Hfail. lia.
    + rewrite (get_public_key_loop_done b reties w k E).
      exists (fetch_events (fetch_calls w) (authenticator w (fetch_calls w))).
      rewrite failure_log_fetch_events. split; [reflexivity|].
      split; [cbn; lia|]. split.
      * intros [|i] n e H; discriminate.
      * intros i _ Hfail. exfalso.
        destruct (Hfail O ltac:(lia)) as [e He]. cbn in He. congruence.
Qed.

(** X3: with nothing cached, each failed fetch of a [get_public_key]
    call is logged once and in order under "could not get public key
    from frontegg", the i-th entry carrying the number i (from 1) and
    the exception that fetch raised; at most ten entries, and none is
    missing for a fetch that failed along with all before it. *)
Theorem failures_logged_in_order (w : World) :
  truthy (publicKey w) = false ->
  exists evs,
    trace (snd (get_public_key w)) = trace w ++ evs /\
    (length (failure_log evs) <= 10)%nat /\
    (forall i n e,
        nth_error (failure_log evs) i = Some (n, e) ->
        n = S i /\ fetch_outcome (authenticator w (i + fetch_calls w)) = inl e) /\
    (forall i,
        (i < 10)%nat ->
        (forall j, (j <= i)%nat -> fetch_fails w j) ->
        (i < length (failure_log evs))%nat).
Proof.
  intros Hc. rewrite (get_public_key_uncached w Hc).
  set (l := EvLog INFO "could not find public key locally, will fetch public key" []).
  destruct (get_public_key_loop_failure_log 10 0 (advance w 0 [l]))
    as (evs & Ht & Hlen & Hnth & Hall).
  exists (l :: evs). split.
  { rewrite Ht. cbn [trace advance]. now rewrite <- app_assoc. }
  change (failure_log (l :: evs)) with (failure_log evs).
  split; [exact Hlen|]. split; [exact Hnth|]. exact Hall.
Qed.

Lemma failures_logged_in_order_witness :
  truthy (publicKey flaky_client) = false /\
  exists evs,
    trace (snd (get_public_key flaky_client)) = trace flaky_client ++ evs /\
    (2 < length (failure_log evs))%nat.
Proof.
  split; [reflexivity|].
  destruct (failures_logged_in_order flaky_client eq_refl) as (evs & Ht & _ & _ & Hall).
  exists evs. split; [exact Ht|]. apply Hall; [lia|].
  intros j Hj. exists (OtherError "ConnectError" "connection refused").
  destruct j as [|[|[|j]]]; [reflexivity..|lia].
Defined.

(** ** Call after call *)

Lemma after_calls_dead_vendor w n :
  truthy (publicKey w) = false ->
  (forall i, fetch_fails w i) ->
  exists evs, after_calls n w = advance w (10 * n) evs.
Proof.
  intros Hc Hall. induction n as [|n [evs IH]].
  - exists []. cbn. now rewrite advance_zero.
  - change (after_calls (S n) w) with (snd (get_public_key (after_calls n w))).
    rewrite IH.
    destruct (get_public_key_all_fail (advance w (10 * n) evs) Hc) as (evs' & _ & _ & Hrun & _).
    { intros i _. apply fetch_fails_unshift, Hall. }
    rewrite Hrun. cbn [snd]. rewrite advance_advance.
    exists (evs ++ evs'). f_equal. lia.
Qed.

(** X4: a failed lookup is not remembered.  With nothing cached and a
    vendor that fails every fetch, each [get_public_key] call makes ten
    fetches of its own: after n calls 10 * n fetches were made, the
    cache is as it was, and the next call returns [None] again. *)
Theorem dead_vendor_refetched_every_call (w : World) (n : nat) :
  truthy (publicKey w) = false ->
  (forall i, fetch_fails w i) ->
  fetch_calls (after_calls n w) = (10 * n + fetch_calls w)%nat /\
  publicKey (after_calls n w) = publicKey w /\
  fst (get_public_key (after_calls n w)) = inr PNone.
Proof.
  intros Hc Hall.
  destruct (after_calls_dead_vendor w n Hc Hall) as (evs & ->).
  split; [reflexivity|]. split; [reflexivity|].
  destruct (get_public_key_all_fail (advance w (10 * n) evs) Hc) as (evs' & _ & _ & -> & _).
  - intros i _. apply fetch_fails_unshift, Hall.
  - reflexivity.
Qed.

Lemma dead_vendor_refetched_every_call_witness :
  truthy (publicKey unreachable_client) = false /\
  fetch_calls (after_calls 3 unreachable_client) = 30%nat.
Proof.
  split; [reflexivity|].
  assert (Hall : forall i, fetch_fails unreachable_client i).
  { intros i. exists (OtherError "ConnectError" "connection refused"). reflexivity. }
  destruct (dead_vendor_refetched_every_call unreachable_client 3 eq_refl Hall) as (H & _).
  rewrite H. reflexivity.
Defined.

(** ** Resolver dispatch *)

Lemma select_resolver_first type before r after :
  Forall (fun x => should_handle x type = false) before ->
  should_handle r type = true ->
  select_resolver type (before ++ r :: after) = Some r.
Proof.
  intros Hb Hr. induction Hb as [|x before Hx _ IH]; cbn.
  - now rewrite Hr.
  - now rewrite Hx.
Qed.

Lemma filter_validate_key_events evs :
  Forall (fun ev => is_key_event ev = true) evs -> List.filter is_validate evs = [].
Proof.
  induction 1 as [|ev evs Hev _ IH]; [reflexivity|].
  cbn. now rewrite (key_event_not_validate ev Hev).
Qed.

(** X5: the resolvers are tried in list order and the first one that
    claims the type answers, whatever stands after it; that resolver's
    [validate_token] is the only one called, and it is called once. *)
Theorem first_claiming_resolver_called_once
    (w : World) (token options type : PyVal) (before after : list Resolver) (r : Resolver) :
  tokenResolvers w = before ++ r :: after ->
  Forall (fun x => should_handle x type = false) before ->
  should_handle r type = true ->
  exists key evs,
    fst (validate_identity_on_token token options type w) =
      validate_token r (stripped token type) key options /\
    trace (snd (validate_identity_on_token token options type w)) = trace w ++ evs /\
    List.filter is_validate evs =
      [EvValidateToken (resolver_name r) (stripped token type) key options].
Proof.
  intros Hlist Hbefore Hr.
  assert (Hsel : select_resolver type (tokenResolvers w) = Some r).
  { rewrite Hlist. now apply select_resolver_first. }
  destruct (validate_identity_on_token_claimed token options type w r Hsel)
    as (key & evs & Hres & Ht & Hk & _).
  exists key, (evs ++ [EvValidateToken (resolver_name r) (stripped token type) key options]).
  split; [exact Hres|]. split; [exact Ht|].
  rewrite List.filter_app, (filter_validate_key_events evs Hk). reflexivity.
Qed.

Lemma first_claiming_resolver_called_once_witness :
  tokenResolvers two_resolver_client = [] ++ greedy_resolver :: [rejecting_resolver] /\
  should_handle rejecting_resolver (PStr "JWT") = true /\
  exists key,
    fst (validate_identity_on_token (PStr "abc") PNone (PStr "JWT") two_resolver_client) =
      inr (PDict [("token", PStr "abc"); ("key", key)]).
Proof.
  split; [reflexivity|]. split; [reflexivity|].
  destruct (first_claiming_resolver_called_once two_resolver_client
              (PStr "abc") PNone (PStr "JWT") [] [rejecting_resolver] greedy_resolver
              eq_refl (List.Forall_nil _) eq_refl) as (key & evs & Hres & _).
  exists key. rewrite Hres. reflexivity.
Defined.

(** X6: for a declared type other than JWT the token is not touched:
    the resolver receives it as the caller gave it, a leading
    ["Bearer "] included. *)
Theorem other_types_keep_token
    (w : World) (token options type : PyVal) (r : Resolver) :
  is_jwt_type type = false ->
  select_resolver type (tokenResolvers w) = Some r ->
  exists key,
    fst (validate_identity_on_token token options type w) =
      validate_token r token key options /\
    In (EvValidateToken (resolver_name r) token key options)
       (trace (snd (validate_identity_on_token token options type w))).
Proof.
  intros Hj Hsel.
  destruct (validate_identity_on_token_claimed token options type w r Hsel)
    as (key & evs & Hres & Ht & _).
  assert (Hs : stripped token type = token) by (unfold stripped; now rewrite Hj).
  rewrite Hs in *. exists key. split; [exact Hres|].
  rewrite Ht. apply in_or_app. right. apply in_or_app. right. now left.
Qed.

Lemma other_types_keep_token_witness :
  is_jwt_type (PStr "AccessToken") = false /\
  exists key,
    fst (validate_identity_on_token (PStr "Bearer abc") PNone (PStr "AccessToken")
           two_resolver_client) =
      inr (PDict [("token", PStr "Bearer abc"); ("key", key)]).
Proof.
  split; [reflexivity|].
  destruct (other_types_keep_token two_resolver_client
              (PStr "Bearer abc") PNone (PStr "AccessToken") greedy_resolver
              eq_refl eq_refl) as (key & Hres & _).
  exists key. rewrite Hres. reflexivity.
Defined.

(** ** The cache across calls *)



(** ** What the stripping does to a string *)

Lemma replace_from_length old skip s :
  (String.length (replace_from old "" skip s) + Nat.min skip (String.length s)
   <= String.length s)%nat.
Proof.
  revert skip. induction s as [|c rest IH]; intros skip; [cbn; lia|].
  destruct skip as [|k].
  - cbn [replace_from]. destruct (String.prefix old (String c rest)).
    + change (String.append "" ?x) with x.
      specialize (IH (Nat.pred (String.length old))). cbn [String.length]. lia.
    + specialize (IH O). cbn [String.length]. lia.
  - cbn [replace_from String.length]. specialize (IH k). lia.
Qed.

Lemma replace_from_shorter a old s :
  occurs (String a old) s = true ->
  (String.length (replace_from (String a old) "" 0 s) < String.length s)%nat.
Proof.
  induction s as [|c rest IH]; intros H; [discriminate|].
  cbn [occurs] in H. cbn [replace_from].
  destruct (String.prefix (String a old) (String c rest)) eqn:Hp.
  - change (String.append "" ?x) with x.
    pose proof (replace_from_length (String a old)
                  (Nat.pred (String.length (String a old))) rest).
    cbn [String.length Nat.pred] in *. lia.
  - cbn [orb] in H. specialize (IH H). cbn [String.length]. lia.
Qed.

(** X8: for the JWT type a string token leaves the stripping step as a
    string that is never longer, and that is the token itself exactly
    when ["Bearer "] occurs nowhere in it. *)
Theorem stripping_shortens_or_keeps (w : World) (s : string) (type : PyVal) :
  is_jwt_type type = true ->
  exists t,
    fst (extract_token (PStr s) type w) = inr (PStr t) /\
    (String.length t <= String.length s)%nat /\
    (t = s <-> occurs "Bearer " s = false).
Proof.
  intros Hj. exists (str_replace s "Bearer " "").
  destruct (extract_token_run (PStr s) type w) as (evs & -> & _).
  unfold stripped. rewrite Hj. cbn [fst py_replace]. split; [reflexivity|].
  unfold str_replace. split.
  - pose proof (replace_from_length "Bearer " 0 s). lia.
  - split.
    + intros Heq. destruct (occurs "Bearer " s) eqn:Ho; [|reflexivity].
      pose proof (replace_from_shorter _ _ _ Ho) as Hlt. rewrite Heq in Hlt. lia.
    + apply replace_from_absent.
Qed.

Lemma stripping_shortens_or_keeps_witness :
  is_jwt_type (PStr "JWT") = true /\
  exists t,
    fst (extract_token (PStr "eyJhbGciOi") (PStr "JWT") keyed_client) = inr (PStr t) /\
    t = "eyJhbGciOi".
Proof.
  split; [reflexivity|].
  destruct (stripping_shortens_or_keeps keyed_client "eyJhbGciOi" (PStr "JWT") eq_refl)
    as (t & Ht & _ & Hiff).
  exists t. split; [exact Ht|]. apply Hiff. reflexivity.
Defined.

(** ** The raw decode path, end to end *)

Section Preserves.
Context {B : Type} (f : World -> B).

Lemma preserves_ret {A} (a : A) : preserves f (ret a).
Proof. intros w; reflexivity. Qed.

Lemma preserves_raise {A} e : preserves f (@raise A e).
Proof. intros w; reflexivity. Qed.

Lemma preserves_lift {A} (o : Outcome A) : preserves f (lift o).
Proof. intros w; reflexivity. Qed.

Lemma preserves_gets {A} (g : World -> A) : preserves f (gets g).
Proof. intros w; reflexivity. Qed.

Lemma preserves_modify (g : World -> World) :
  (forall w, f (g w) = f w) -> preserves f (modify g).
Proof. intros H w. exact (H w). Qed.

Lemma preserves_bind {A C} (m : M A) (k : A -> M C) :
  preserves f m -> (forall a, preserves f (k a)) -> preserves f (bind m k).
Proof.
  intros Hm Hk w. unfold bind. specialize (Hm w).
  destruct (m w) as [[e|a] w1]; cbn [snd] in *; [exact Hm|].
  now rewrite (Hk a w1).
Qed.

Lemma preserves_try {A} (m : M A) (h : PyExc -> M A) :
  preserves f m -> (forall e, preserves f (h e)) -> preserves f (try_except m h).
Proof.
  intros Hm Hh w. unfold try_except. specialize (Hm w).
  destruct (m w) as [[e|a] w1]; cbn [snd] in *; [|exact Hm].
  now rewrite (Hh e w1).
Qed.

Lemma preserves_retry_loop {A} tries delay (body : M A) :
  (forall ev w, f (emit ev w) = f w) ->
  preserves f body -> preserves f (retry_loop tries delay body).
Proof.
  intros He Hb. induction tries as [|[|n] IH].
  - apply preserves_raise.
  - exact Hb.
  - change (preserves f (try_except body
             (fun _ => bind (sleep (SecFloat delay))
                         (fun _ => retry_loop (S n) delay body)))).
    apply preserves_try; [exact Hb|]. intros _.
    apply preserves_bind; [apply preserves_modify; intros; apply He|].
    intros _. exact IH.
Qed.

Lemma preserves_get_jwt_data jwt_token verify public_key :
  (forall ev w, f (emit ev w) = f w) ->
  (forall w, f (count_decode w) = f w) ->
  preserves f (get_jwt_data jwt_token verify public_key).
Proof.
  intros He Hc. unfold get_jwt_data, retry.
  apply preserves_bind; [apply preserves_gets|intros tries].
  apply preserves_bind; [apply preserves_gets|intros delay].
  apply preserves_retry_loop; [exact He|].
  unfold get_jwt_data_body, call_jwt_decode.
  destruct (truthy verify);
    (apply preserves_bind; [apply preserves_gets|intros n]);
    (apply preserves_bind; [apply preserves_modify, Hc|intros _]);
    (apply preserves_bind; [apply preserves_modify; intros; apply He|intros _]);
    (apply preserves_bind; [apply preserves_gets|intros d]);
    apply preserves_lift.
Qed.
End Preserves.

Lemma decode_jwt_string_run s verify w :
  s <> "" ->
  exists k W evs,
    fst (get_public_key w) = inr k /\
    publicKey W = publicKey (snd (get_public_key w)) /\
    fetch_calls W = fetch_calls (snd (get_public_key w)) /\
    trace W = trace w ++ evs /\
    Forall (fun ev => is_key_event ev = true) evs /\
    decode_jwt (PStr s) verify w =
    decode_after_key (PStr (str_replace s "Bearer " "")) verify k W.
Proof.
  intros Hs.
  set (l := EvLog DEBUG "found authorization header: " [LVal (PStr s)]).
  destruct (get_public_key_total (advance w 0 [l])) as (k & n & e1 & o & Hg & _ & _ & Hk & _).
  destruct (get_public_key_ignores_trace w [l]) as (Hfst & Hkey & Hfc).
  rewrite Hg in Hfst, Hkey, Hfc. cbn [fst snd] in Hfst, Hkey, Hfc.
  exists k, (with_key o (advance (advance w 0 [l]) n e1)), (l :: e1).
  split; [now rewrite <- Hfst|]. split; [exact Hkey|]. split; [exact Hfc|].
  split; [rewrite trace_with_key; cbn [trace advance]; now rewrite <- app_assoc|].
  split; [constructor; [reflexivity|exact Hk]|].
  unfold decode_jwt. cbn [truthy].
  destruct (String.eqb_spec s ""); [contradiction|]. cbn [negb].
  unfold bind at 1, log at 1, modify at 1.
  unfold bind at 1, lift, py_replace.
  unfold bind at 1.
  change (emit (EvLog DEBUG "found authorization header: " [LVal (PStr s)]) w)
    with (advance w 0 [l]).
  rewrite Hg. reflexivity.
Qed.

Lemma appends_get_jwt_data_with jwt_token verify public_key :
  appends
    (decode_event_with jwt_token (if truthy verify then Some public_key else None) verify)
    (get_jwt_data jwt_token verify public_key).
Proof.
  unfold get_jwt_data, retry. repeat appends_step.
  apply appends_retry_loop; [exact I|].
  unfold get_jwt_data_body. destruct (truthy verify);
    apply appends_call_jwt_decode; repeat split; discriminate.
Qed.

Lemma appends_decode_after_key P jwt_token verify public_key :
  (forall ev, is_key_event ev = true -> P ev) ->
  appends P (get_jwt_data jwt_token verify public_key) ->
  appends P (decode_after_key jwt_token verify public_key).
Proof.
  intros HP Hd. unfold decode_after_key, log.
  apply appends_bind; [apply appends_emit, HP; reflexivity|intros _].
  apply appends_bind; [exact Hd|intros d].
  apply appends_bind; [apply appends_emit, HP; reflexivity|intros _].
  apply appends_bind; [apply appends_emit, HP; reflexivity|intros _].
  apply appends_ret.
Qed.

(** X9: a header that is not a string (and not empty or [None]) makes
    [decode_jwt] raise [AttributeError] at the prefix stripping, before
    the key is looked up: only the debug line was logged, nothing was
    fetched and the cache is as it was. *)
Theorem decode_jwt_needs_string_header (w : World) (authorization_header verify : PyVal) :
  truthy authorization_header = true ->
  (forall s, authorization_header <> PStr s) ->
  (exists msg, fst (decode_jwt authorization_header verify w) = inl (AttributeError msg)) /\
  trace (snd (decode_jwt authorization_header verify w)) =
    trace w ++ [EvLog DEBUG "found authorization header: " [LVal authorization_header]] /\
  fetch_calls (snd (decode_jwt authorization_header verify w)) = fetch_calls w /\
  publicKey (snd (decode_jwt authorization_header verify w)) = publicKey w.
Proof.
  intros Ht Hns. unfold decode_jwt. rewrite Ht. cbn [negb].
  unfold bind, log, modify, lift.
  destruct authorization_header; cbn [py_replace fst snd];
    try (split; [eexists; reflexivity|repeat split]).
  now destruct (Hns s).
Qed.

Lemma decode_jwt_needs_string_header_witness :
  truthy (PInt 7) = true /\
  fetch_calls (snd (decode_jwt (PInt 7) (PBool true) flaky_client)) = O.
Proof.
  split; [reflexivity|].
  destruct (decode_jwt_needs_string_header flaky_client (PInt 7) (PBool true) eq_refl)
    as (_ & _ & Hf & _).
  - intros s; discriminate.
  - rewrite Hf. reflexivity.
Defined.

(** X10: for a non-empty string header, every [jwt.decode] call of
    [decode_jwt] receives the header with each ["Bearer "] removed as
    the token; when [verify] holds it receives the very value
    [get_public_key] returned as the key, [None] included when the key
    could not be fetched, and when [verify] does not hold the key is
    left out and [verify_signature] is passed as [verify]. *)
Theorem decode_jwt_hands_over_key (w : World) (s : string) (verify : PyVal) :
  s <> "" ->
  exists key evs,
    fst (get_public_key w) = inr key /\
    trace (snd (decode_jwt (PStr s) verify w)) = trace w ++ evs /\
    Forall (decode_event_with (PStr (str_replace s "Bearer " ""))
              (if truthy verify then Some key else None) verify) evs.
Proof.
  intros Hs.
  destruct (decode_jwt_string_run s verify w Hs)
    as (k & W & e1 & Hfst & _ & _ & Ht & Hk & ->).
  set (P := decode_event_with (PStr (str_replace s "Bearer " ""))
              (if truthy verify then Some k else None) verify).
  assert (HP : forall ev, is_key_event ev = true -> P ev).
  { intros [] H; try exact I. discriminate. }
  destruct (appends_decode_after_key P (PStr (str_replace s "Bearer " "")) verify k HP
              (appends_get_jwt_data_with _ _ _) W) as (e2 & Ht2 & Hp2).
  exists k, (e1 ++ e2). split; [exact Hfst|]. split.
  - rewrite Ht2, Ht. now rewrite <- app_assoc.
  - apply Forall_app. split; [|exact Hp2].
    eapply Forall_impl; [exact Hk|exact HP].
Qed.

Lemma decode_jwt_hands_over_key_witness :
  "Bearer abc" <> "" /\
  exists key evs,
    fst (get_public_key unreachable_client) = inr key /\
    trace (snd (decode_jwt (PStr "Bearer abc") (PBool true) unreachable_client)) =
      trace unreachable_client ++ evs.
Proof.
  assert (H : "Bearer abc" <> "") by discriminate.
  split; [exact H|].
  destruct (decode_jwt_hands_over_key unreachable_client "Bearer abc" (PBool true) H)
    as (key & evs & Hk & Ht & _).
  exists key, evs. split; [exact Hk|exact Ht].
Defined.

Lemma preserves_decode_after_key {B} (f : World -> B) jwt_token verify public_key :
  (forall ev w, f (emit ev w) = f w) ->
  (forall w, f (count_decode w) = f w) ->
  preserves f (decode_after_key jwt_token verify public_key).
Proof.
  intros He Hc. unfold decode_after_key, log.
  apply preserves_bind; [apply preserves_modify; intros; apply He|intros _].
  apply preserves_bind; [now apply preserves_get_jwt_data|intros d].
  apply preserves_bind; [apply preserves_modify; intros; apply He|intros _].
  apply preserves_bind; [apply preserves_modify; intros; apply He|intros _].
  apply preserves_ret.
Qed.

(** X11: for a non-empty string header [decode_jwt] looks the key up
    whatever [verify] is, so also when the key will not be used, and
    the decoding that follows neither fetches nor caches: cache and
    fetch count after [decode_jwt] are those after [get_public_key]. *)
Theorem decode_jwt_looks_key_up_first (w : World) (s : string) (verify : PyVal) :
  s <> "" ->
  publicKey (snd (decode_jwt (PStr s) verify w)) = publicKey (snd (get_public_key w)) /\
  fetch_calls (snd (decode_jwt (PStr s) verify w)) = fetch_calls (snd (get_public_key w)).
Proof.
  intros Hs.
  destruct (decode_jwt_string_run s verify w Hs)
    as (k & W & e1 & _ & Hkey & Hfc & _ & _ & ->).
  rewrite <- Hkey, <- Hfc. split.
  - apply (preserves_decode_after_key publicKey); reflexivity.
  - apply (preserves_decode_after_key fetch_calls); reflexivity.
Qed.

Lemma decode_jwt_looks_key_up_first_witness :
  "Bearer abc" <> "" /\
  fetch_calls (snd (decode_jwt (PStr "Bearer abc") (PBool false) flaky_client)) =
    fetch_calls (snd (get_public_key flaky_client)).
Proof.
  assert (H : "Bearer abc" <> "") by discriminate.
  split; [exact H|].
  exact (proj2 (decode_jwt_looks_key_up_first flaky_client "Bearer abc" (PBool false) H)).
Defined.

(** ** The Flask extension *)

(** X12: [Frontegg()] without an application fails with
    [AttributeError], not with the [ValueError] of a missing setting;
    with an application the three settings are returned when all are
    configured, and otherwise the [ValueError] names the first missing
    one, in the order client id, API key, context resolver. *)
Theorem settings_read_or_first_missing_named (config : gmap string PyVal) :
  (exists msg, read_settings None = inl (AttributeError msg)) /\
  match first_missing_setting config with
  | Some key =>
      read_settings (Some config) =
      inl (ValueError (String.append (KeyError_str key)
                         " must be specified in the application's configuration."))
  | None =>
      exists client_id api_key context_callback,
        config !! "FRONTEGG_CLIENT_ID" = Some client_id /\
        config !! "FRONTEGG_API_KEY" = Some api_key /\
        config !! "FRONTEGG_CONTEXT_RESOLVER" = Some context_callback /\
        read_settings (Some config) = inr (client_id, api_key, context_callback)
  end.
Proof.
  split; [eexists; reflexivity|].
  unfold first_missing_setting, read_settings. cbn [List.find].
  destruct (config !! "FRONTEGG_CLIENT_ID") as [a|]; [|reflexivity].
  destruct (config !! "FRONTEGG_API_KEY") as [b|]; [|reflexivity].
  destruct (config !! "FRONTEGG_CONTEXT_RESOLVER") as [c|]; [|reflexivity].
  exists a, b, c. repeat split.
Qed.

Lemma lookup_setdefault_kept key value (config : gmap string PyVal) k v :
  config !! k = Some v -> setdefault key value config !! k = Some v.
Proof.
  intros H. unfold setdefault. destruct (config !! key) eqn:E; [exact H|].
  destruct (decide (key = k)) as [->|Hne]; [congruence|].
  now rewrite lookup_insert_ne.
Qed.

Lemma lookup_setdefault_ne key value (config : gmap string PyVal) k :
  key <> k -> setdefault key value config !! k = config !! k.
Proof.
  intros Hne. unfold setdefault. destruct (config !! key); [reflexivity|].
  now rewrite lookup_insert_ne.
Qed.

Lemma lookup_setdefault_new key value (config : gmap string PyVal) :
  config !! key = None -> setdefault key value config !! key = Some value.
Proof.
  intros H. unfold setdefault. rewrite H. apply lookup_insert_eq.
Qed.

Lemma lookup_setdefault_is_Some key value (config : gmap string PyVal) k :
  is_Some (setdefault key value config !! k) <-> is_Some (config !! k) \/ k = key.
Proof.
  unfold setdefault. destruct (config !! key) eqn:E.
  - split; [auto|]. intros [H| ->]; [exact H|]. rewrite E. eauto.
  - destruct (decide (key = k)) as [->|Hne].
    + rewrite lookup_insert_eq. split; eauto.
    + rewrite lookup_insert_ne by exact Hne. split; [auto|].
      intros [H|Heq]; [exact H|congruence].
Qed.

(** X13: [init_app] only fills in what the application has not
    configured: a setting present before is never overwritten, even
    when the run stops on an error, and after a run that completes the
    settings are those present before and the five URLs, no other. *)
Theorem init_app_keeps_existing_settings
    (urljoin : string -> string -> Outcome string)
    (environ : gmap string string) (config : gmap string PyVal) :
  (forall k v,
      config !! k = Some v -> snd (init_app_config urljoin environ config) !! k = Some v) /\
  (fst (init_app_config urljoin environ config) = None ->
   forall k,
     is_Some (snd (init_app_config urljoin environ config) !! k) <->
     is_Some (config !! k) \/ k = "FRONTEGG_API_GATEWAY_URL" \/
     In k (List.map fst service_paths)).
Proof.
  unfold init_app_config.
  set (gw := environ_get environ "FRONTEGG_API_GATEWAY_URL" "https://api.frontegg.com/").
  split.
  - intros k v H.
    destruct (urljoin gw "/vendors/auth/token"); cbn [snd];
      [now apply lookup_setdefault_kept|].
    destruct (urljoin gw "/audits"); cbn [snd];
      [now repeat apply lookup_setdefault_kept|].
    destruct (urljoin gw "/metadata"); cbn [snd];
      [now repeat apply lookup_setdefault_kept|].
    destruct (urljoin gw "/team"); cbn [snd];
      now repeat apply lookup_setdefault_kept.
  - destruct (urljoin gw "/vendors/auth/token"); [discriminate|].
    destruct (urljoin gw "/audits"); [discriminate|].
    destruct (urljoin gw "/metadata"); [discriminate|].
    destruct (urljoin gw "/team"); [discriminate|].
    intros _ k. cbn [snd service_paths List.map fst In].
    rewrite !lookup_setdefault_is_Some. intuition congruence.
Qed.

Lemma init_app_keeps_existing_settings_witness :
  ({["FRONTEGG_API_GATEWAY_URL" := PStr "https://configured.example/"]} : gmap string PyVal)
    !! "FRONTEGG_API_GATEWAY_URL" = Some (PStr "https://configured.example/") /\
  snd (init_app_config join_absolute_path ∅
         {["FRONTEGG_API_GATEWAY_URL" := PStr "https://configured.example/"]})
    !! "FRONTEGG_API_GATEWAY_URL" = Some (PStr "https://configured.example/").
Proof.
  assert (H : ({["FRONTEGG_API_GATEWAY_URL" := PStr "https://configured.example/"]}
                 : gmap string PyVal) !! "FRONTEGG_API_GATEWAY_URL" =
              Some (PStr "https://configured.example/")) by apply lookup_singleton_eq.
  split; [exact H|].
  exact (proj1 (init_app_keeps_existing_settings join_absolute_path ∅ _) _ _ H).
Defined.

(** X14: the default of each service URL is joined from the gateway
    URL of the environment, or from the built-in gateway when the
    environment has none; the gateway the application configured plays
    no part.  For a service the application left unset, a completed
    [init_app] stores the environment's value for it, as it is, when
    there is one, and that joined default otherwise. *)
Theorem init_app_defaults_from_environment
    (urljoin : string -> string -> Outcome string)
    (environ : gmap string string) (config : gmap string PyVal) (name path : string) :
  In (name, path) service_paths ->
  config !! name = None ->
  fst (init_app_config urljoin environ config) = None ->
  exists joined,
    urljoin (environ_get environ "FRONTEGG_API_GATEWAY_URL" "https://api.frontegg.com/") path =
      inr joined /\
    snd (init_app_config urljoin environ config) !! name =
      Some (PStr (environ_get environ name joined)).
Proof.
  intros Hin Hnone. unfold init_app_config.
  set (gw := environ_get environ "FRONTEGG_API_GATEWAY_URL" "https://api.frontegg.com/").
  destruct (urljoin gw "/vendors/auth/token") as [|j1] eqn:E1; [discriminate|].
  destruct (urljoin gw "/audits") as [|j2] eqn:E2; [discriminate|].
  destruct (urljoin gw "/metadata") as [|j3] eqn:E3; [discriminate|].
  destruct (urljoin gw "/team") as [|j4] eqn:E4; [discriminate|].
  intros _. cbn [snd].
  cbn [service_paths In] in Hin.
  destruct Hin as [H|[H|[H|[H|[]]]]]; inversion H; subst name path; clear H.
  - exists j1. split; [exact E1|].
    rewrite !lookup_setdefault_ne by discriminate.
    apply lookup_setdefault_new. now rewrite lookup_setdefault_ne by discriminate.
  - exists j2. split; [exact E2|].
    rewrite !lookup_setdefault_ne by discriminate.
    apply lookup_setdefault_new. now rewrite !lookup_setdefault_ne by discriminate.
  - exists j3. split; [exact E3|].
    rewrite !lookup_setdefault_ne by discriminate.
    apply lookup_setdefault_new. now rewrite !lookup_setdefault_ne by discriminate.
  - exists j4. split; [exact E4|].
    apply lookup_setdefault_new. now rewrite !lookup_setdefault_ne by discriminate.
Qed.

Lemma init_app_defaults_from_environment_witness :
  In ("FRONTEGG_AUDITS_SERVICE_URL", "/audits") service_paths /\
  exists joined,
    join_absolute_path
      (environ_get {["FRONTEGG_API_GATEWAY_URL" := "https://eu.frontegg.example/"]}
         "FRONTEGG_API_GATEWAY_URL" "https://api.frontegg.com/") "/audits" = inr joined /\
    snd (init_app_config join_absolute_path
           {["FRONTEGG_API_GATEWAY_URL" := "https://eu.frontegg.example/"]}
           {["FRONTEGG_API_GATEWAY_URL" := PStr "https://configured.example/"]})
      !! "FRONTEGG_AUDITS_SERVICE_URL" =
    Some (PStr (environ_get {["FRONTEGG_API_GATEWAY_URL" := "https://eu.frontegg.example/"]}
                  "FRONTEGG_AUDITS_SERVICE_URL" joined)).
Proof.
  assert (Hin : In ("FRONTEGG_AUDITS_SERVICE_URL", "/audits") service_paths).
  { right. left. reflexivity. }
  split; [exact Hin|].
  apply (init_app_defaults_from_environment join_absolute_path
           {["FRONTEGG_API_GATEWAY_URL" := "https://eu.frontegg.example/"]}
           {["FRONTEGG_API_GATEWAY_URL" := PStr "https://configured.example/"]}
           "FRONTEGG_AUDITS_SERVICE_URL" "/audits" Hin).
  - apply lookup_singleton_ne. discriminate.
  - reflexivity.
Defined.

(** X15: [proxy_request] sends at most one request upstream and what
    it returns or raises is what that request gave; the request keeps
    the endpoint, method and query arguments of the incoming one and
    carries the parsed host name; its JSON body is the parsed incoming
    body only for a JSON request with a non-empty body, and [None]
    otherwise, the body then not being parsed at all; and when no
    request was sent, the host name or the body failed to parse and
    that error is raised. *)
Theorem proxy_request_sends_at_most_once
    (urlparse_hostname : string -> Outcome PyVal)
    (client_request : UpstreamCall -> Outcome ProxyResponse)
    (request : FlaskRequest) (endpoint : string) :
  let run := proxy_request urlparse_hostname client_request request endpoint in
  (length (upstream_calls (fst run)) <= 1)%nat /\
  (forall call,
      In call (upstream_calls (fst run)) ->
      snd run = client_request call /\
      uc_endpoint call = endpoint /\
      uc_method call = req_method request /\
      uc_params call = req_args request /\
      urlparse_hostname (req_base_url request) = inr (uc_host call) /\
      (if (req_is_json request && negb (String.eqb (req_data request) ""))%bool
       then req_json request = inr (uc_json call)
       else uc_json call = PNone)) /\
  (upstream_calls (fst run) = [] ->
   exists e, snd run = inl e /\
     (urlparse_hostname (req_base_url request) = inl e \/
      (req_is_json request = true /\ req_data request <> "" /\ req_json request = inl e))).
Proof.
  intros run. subst run. unfold proxy_request.
  destruct (urlparse_hostname (req_base_url request)) as [e|hostname] eqn:Eh.
  - cbn. split; [lia|]. split; [intros call []|]. intros _. exists e. auto.
  - destruct (req_is_json request) eqn:Ej; cbn [andb].
    + destruct (String.eqb_spec (req_data request) "") as [Hd|Hd]; cbn [negb].
      * cbn. split; [lia|]. split; [|discriminate].
        intros call [<-|[]]. repeat split.
      * destruct (req_json request) as [e|body] eqn:Eb.
        -- cbn. split; [lia|]. split; [intros call []|]. intros _. exists e. auto.
        -- cbn. split; [lia|]. split; [|discriminate].
           intros call [<-|[]]. repeat split.
    + cbn. split; [lia|]. split; [|discriminate].
      intros call [<-|[]]. repeat split.
Qed.

Lemma proxy_request_sends_at_most_once_witness :
  In {| uc_endpoint := "audits"; uc_method := "GET"; uc_json := PNone;
        uc_params := [("count", "10")]; uc_host := PStr "app.example.com" |}
     (upstream_calls (fst (proxy_request sample_hostname forbidding_upstream
                             sample_request "audits"))) /\
  snd (proxy_request sample_hostname forbidding_upstream sample_request "audits") =
    inl (OtherError "ForbiddenRequest" "not allowed").
Proof.
  assert (H : In {| uc_endpoint := "audits"; uc_method := "GET"; uc_json := PNone;
                    uc_params := [("count", "10")]; uc_host := PStr "app.example.com" |}
                (upstream_calls (fst (proxy_request sample_hostname forbidding_upstream
                                        sample_request "audits")))).
  { left. reflexivity. }
  split; [exact H|].
  pose proof (proxy_request_sends_at_most_once sample_hostname forbidding_upstream
                sample_request "audits") as P.
  cbv zeta in P. destruct P as (_ & Pcall & _).
  destruct (Pcall _ H) as (Hres & _). rewrite Hres. reflexivity.
Defined.

(** X16: the [proxy] view hands on whatever [proxy_request] raises, a
    [ForbiddenRequest] included: its handler stands around
    [make_response] alone, so the 403 "Forbidden" answer is given only
    when [make_response] raises [ForbiddenRequest].  And what the view
    returns on success is the response [make_response] built from the
    upstream content and status, with the headers of that response,
    not those that came from upstream. *)
Theorem proxy_view_forbidden_handler
    (urlparse_hostname : string -> Outcome PyVal)
    (client_request : UpstreamCall -> Outcome ProxyResponse)
    (make_response : string -> Z -> Outcome FlaskResponse)
    (request : FlaskRequest) (endpoint : string) :
  let sent := proxy_request urlparse_hostname client_request request endpoint in
  let view := proxy urlparse_hostname client_request make_response request endpoint in
  fst view = fst sent /\
  (forall e, snd sent = inl e -> snd view = inl e) /\
  (forall upstream,
      snd sent = inr upstream ->
      match make_response (pr_content upstream) (pr_status_code upstream) with
      | inr response => snd view = inr (ViewResponse response)
      | inl e =>
          snd view =
          if is_ForbiddenRequest e
          then inr (ViewTuple (PDict [("message", PStr "Forbidden")]) 403)
          else inl e
      end).
Proof.
  intros sent view. subst sent view. unfold proxy.
  destruct (proxy_request urlparse_hostname client_request request endpoint)
    as [evs [e|upstream]]; cbn [fst snd].
  - split; [reflexivity|]. split.
    + intros e' H. congruence.
    + intros u H. discriminate.
  - split; [|split].
    + destruct (make_response (pr_content upstream) (pr_status_code upstream)) as [e|r];
        [now destruct (is_ForbiddenRequest e)|reflexivity].
    + intros e H. discriminate.
    + intros u H. assert (u = upstream) as -> by congruence.
      destruct (make_response (pr_content upstream) (pr_status_code upstream))
        as [e|[c st h]].
      * now destruct (is_ForbiddenRequest e).
      * reflexivity.
Qed.

Lemma proxy_view_forbidden_handler_witness :
  snd (proxy_request sample_hostname forbidding_upstream sample_request "audits") =
    inl (OtherError "ForbiddenRequest" "not allowed") /\
  snd (proxy sample_hostname forbidding_upstream plain_make_response sample_request "audits") =
    inl (OtherError "ForbiddenRequest" "not allowed").
Proof.
  assert (H : snd (proxy_request sample_hostname forbidding_upstream sample_request "audits") =
              inl (OtherError "ForbiddenRequest" "not allowed")) by reflexivity.
  split; [exact H|].
  pose proof (proxy_view_forbidden_handler sample_hostname forbidding_upstream
                plain_make_response sample_request "audits") as P.
  cbv zeta in P. destruct P as (_ & Perr & _). exact (Perr _ H).
Defined.

(** X17: once [init_app] has completed, the [base_url] and
    [authentication_service_url] properties of the client find their
    settings, where on an application that configured neither they
    raise [KeyError] before; [base_url] is the gateway the application
    configured, if it did, and the gateway of the environment or the
    built-in one otherwise. *)
Theorem urls_available_after_init_app
    (urljoin : string -> string -> Outcome string)
    (environ : gmap string string) (config : gmap string PyVal) :
  fst (init_app_config urljoin environ config) = None ->
  let config' := snd (init_app_config urljoin environ config) in
  (exists gateway,
      base_url config' = inr gateway /\
      (forall g, config !! "FRONTEGG_API_GATEWAY_URL" = Some g -> gateway = g) /\
      (config !! "FRONTEGG_API_GATEWAY_URL" = None ->
       gateway = PStr (environ_get environ "FRONTEGG_API_GATEWAY_URL"
                         "https://api.frontegg.com/"))) /\
  (exists auth, authentication_service_url config' = inr auth) /\
  (config !! "FRONTEGG_API_GATEWAY_URL" = None ->
   exists msg, base_url config = inl (OtherError "KeyError" msg)) /\
  (config !! "FRONTEGG_AUTHENTICATION_SERVICE_URL" = None ->
   exists msg, authentication_service_url config = inl (OtherError "KeyError" msg)).
Proof.
  unfold init_app_config.
  set (gw := environ_get environ "FRONTEGG_API_GATEWAY_URL" "https://api.frontegg.com/").
  destruct (urljoin gw "/vendors/auth/token") as [|j1]; [discriminate|].
  destruct (urljoin gw "/audits") as [|j2]; [discriminate|].
  destruct (urljoin gw "/metadata") as [|j3]; [discriminate|].
  destruct (urljoin gw "/team") as [|j4]; [discriminate|].
  intros _. cbv zeta. cbn [snd].
  unfold base_url, authentication_service_url, config_item.
  split; [|split; [|split]].
  - rewrite !lookup_setdefault_ne by discriminate.
    destruct (config !! "FRONTEGG_API_GATEWAY_URL") as [g|] eqn:Eg.
    + rewrite (lookup_setdefault_kept _ _ _ _ _ Eg). exists g.
      split; [reflexivity|]. split; [congruence|discriminate].
    + rewrite (lookup_setdefault_new _ _ _ Eg). exists (PStr gw).
      split; [reflexivity|]. split; [discriminate|reflexivity].
  - rewrite !lookup_setdefault_ne by discriminate.
    match goal with
    | |- context [setdefault "FRONTEGG_AUTHENTICATION_SERVICE_URL" ?v ?c] =>
        destruct (proj2 (lookup_setdefault_is_Some
                           "FRONTEGG_AUTHENTICATION_SERVICE_URL" v c
                           "FRONTEGG_AUTHENTICATION_SERVICE_URL") (or_intror eq_refl))
          as [auth ->]
    end.
    now exists auth.
  - intros ->. eexists; reflexivity.
  - intros ->. eexists; reflexivity.
Qed.

Lemma urls_available_after_init_app_witness :
  fst (init_app_config join_absolute_path ∅ ∅) = None /\
  base_url (snd (init_app_config join_absolute_path ∅ ∅)) =
    inr (PStr "https://api.frontegg.com/").
Proof.
  assert (H : fst (init_app_config join_absolute_path ∅ ∅) = None) by reflexivity.
  split; [exact H|].
  pose proof (urls_available_after_init_app join_absolute_path ∅ ∅ H) as P.
  cbv zeta in P. destruct P as ((gateway & Hb & _ & Hdefault) & _).
  rewrite Hb, (Hdefault (lookup_empty _)). reflexivity.
Defined.
